(** * quasar: the etcd-backed schema repository

    A shallow embedding of [internal/repository/repository.go] and of the
    library calls it makes, followed by the properties of the repository
    that were checked against it.

    Conventions.
    - Go strings and byte slices are [string]s; [int64] counters are [Z].
    - A Go [error] is an [option]: [None] is [nil].
    - A function that returns [(T, error)] returns a pair, as in Go.
    - A computation that talks to etcd or reads the clock is a value of
      [Go A]: a tree of calls.  [run] executes it against a [World];
      [step] executes one call, which is what a scheduler interleaves.
    - A run-time panic (index out of range) is the [Panic] leaf. *)

From Stdlib Require Import ZArith String Ascii List DecimalString.
From stdpp Require Import gmap strings list sorting.

Local Open Scope string_scope.
Local Open Scope Z_scope.
Local Open Scope list_scope.

(** ** Go values *)

Inductive error_value : Type :=
| errors_New (text : string)      (* errors.New(text) *)
| client_error (text : string)    (* returned by the etcd client *)
| codec_error (text : string).    (* returned by yaml or encoding/json *)

Abbreviation error := (option error_value).

(** ** The [Go] monad: calls on the outside world *)

(** time.Time, as far as timestamppb.New reads it *)
Record Time : Type := { Unix : Z; Nanosecond : Z }.

(** timestamppb.Timestamp *)
Record Timestamp : Type := { Seconds : Z; Nanos : Z }.

Definition timestamppb_New (t : Time) : Timestamp :=
  {| Seconds := Unix t; Nanos := Nanosecond t |}.

(** mvccpb.KeyValue, the two fields the repository reads *)
Record KeyValue : Type := { Key : string; Value : string }.

(** clientv3.GetResponse *)
Record GetResponse : Type := { Kvs : list KeyValue; Count : Z }.

(** clientv3.DeleteResponse *)
Record DeleteResponse : Type := { Deleted : Z }.

Inductive Call : Type -> Type :=
| client_Get (key : string) : Call (GetResponse * error)
| client_Get_WithPrefix (prefix : string) : Call (GetResponse * error)
| client_Put (key val : string) : Call error
| client_Delete (key : string) : Call (DeleteResponse * error)
| time_Now : Call Time.

Inductive Go (A : Type) : Type :=
| Return (a : A)
| Panic (msg : string)
| Do {R : Type} (c : Call R) (k : R -> Go A).

Arguments Return {A} a.
Arguments Panic {A} msg.
Arguments Do {A R} c k.

Fixpoint bind {A B : Type} (m : Go A) (f : A -> Go B) : Go B :=
  match m with
  | Return a => f a
  | Panic msg => Panic msg
  | Do c k => Do c (fun r => bind (k r) f)
  end.

Declare Scope go_scope.
Delimit Scope go_scope with go.
Notation "x <- m ;; k" := (bind m (fun x => k))
  (at level 60, m at next level, right associativity) : go_scope.
Local Open Scope go_scope.

Definition call {R : Type} (c : Call R) : Go R := Do c Return.

(** ** package strings *)

(** [split_at sep s cur] walks [s]; [cur] is the segment read so far. *)
Fixpoint split_at (sep : ascii) (s : string) (cur : string) : list string :=
  match s with
  | EmptyString => [cur]
  | String c rest =>
      if Ascii.eqb c sep then cur :: split_at sep rest ""
      else split_at sep rest (cur +:+ String c "")
  end.

(** strings.Split(s, sep) for a separator of one byte, which is what the
    repository passes.  Splitting the empty string gives one empty
    segment. *)
Definition strings_Split (s : string) (sep : ascii) : list string :=
  split_at sep s "".

Arguments strings_Split s%_string sep%_char.

(** strings.Count(s, sep) for a separator of one byte. *)
Fixpoint strings_Count (s : string) (sep : ascii) : nat :=
  match s with
  | EmptyString => 0
  | String c rest =>
      if Ascii.eqb c sep then S (strings_Count rest sep)
      else strings_Count rest sep
  end.

Arguments strings_Count s%_string sep%_char.

(** ** Generated protobuf messages (package pb)

    The package [proto] of the repository is generated code and is not
    among the sources; the repository uses three of its messages, through
    the fields and getters below. *)

(** Modelled from the spec: the message pb.ConfigSchemaDetails, the
    SchemaIdentifier of the data model (organization, namespace,
    schemaName, version), under the field names that
    getSchemaDetailsFromKey assigns. *)
Record ConfigSchemaDetails : Type := {
  Organization : string;
  Namespace : string;
  SchemaName : string;
  Version : string
}.

(** Modelled from the spec: the message pb.ConfigSchemaData, the
    SchemaEnvelope of the data model (schema text and creation time),
    under the field names that SaveConfigSchema assigns. *)
Record ConfigSchemaData : Type := {
  Schema : string;
  CreationTime : option Timestamp   (* *timestamppb.Timestamp *)
}.

(** Modelled from the spec: the message pb.ConfigSchema, one element of a
    listing (identifier and envelope), under the field names that
    GetSchemasByPrefix assigns. *)
Record ConfigSchema : Type := {
  SchemaDetails : ConfigSchemaDetails;
  SchemaData : ConfigSchemaData
}.

(** Modelled from the spec: the generated getters, which read the field of
    a message that is not nil. *)
Definition GetSchema (x : ConfigSchemaData) : string := Schema x.

Definition GetSchemaDetails (x : ConfigSchema) : ConfigSchemaDetails :=
  SchemaDetails x.

Definition GetVersion (x : ConfigSchemaDetails) : string := Version x.

(** ** Slice indexing *)

Definition itoa (n : nat) : string := NilEmpty.string_of_uint (Nat.to_uint n).

Definition out_of_range (i len : nat) : string :=
  "runtime error: index out of range [" +:+ itoa i +:+ "] with length "
  +:+ itoa len.

(** [s[i]]: Go panics when [i] is out of range. *)
Definition index {A : Type} (s : list A) (i : nat) : Go A :=
  match s !! i with
  | Some t => Return t
  | None => Panic (out_of_range i (length s))
  end.

(** ** getSchemaDetailsFromKey (repository.go, 167-175) *)

Definition getSchemaDetailsFromKey (key : string) : Go ConfigSchemaDetails :=
  let tokens := strings_Split key "/" in
  t0 <- index tokens 0 ;;
  t1 <- index tokens 1 ;;
  t2 <- index tokens 2 ;;
  t3 <- index tokens 3 ;;
  Return {| Organization := t0; Namespace := t1;
            SchemaName := t2; Version := t3 |}.

(** ** package golang.org/x/mod/semver

    The repository orders versions with [semver.Compare] (repository.go,
    line 147).  The definitions below follow that package function by
    function.  Its version syntax is vMAJOR[.MINOR[.PATCH[-PRERELEASE][+BUILD]]]:
    a version string that does not start with the letter v is not valid,
    a string that is not valid is less than every valid one, and two
    strings that are not valid compare equal. *)

Module semver.

Record parsed : Type := {
  major : string;
  minor : string;
  patch : string;
  short : string;
  prerelease : string;
  build : string
}.

Definition isDigit (c : ascii) : bool :=
  Ascii.leb "0" c && Ascii.leb c "9".

Definition isIdentChar (c : ascii) : bool :=
  (Ascii.leb "A" c && Ascii.leb c "Z")
  || (Ascii.leb "a" c && Ascii.leb c "z")
  || (Ascii.leb "0" c && Ascii.leb c "9")
  || Ascii.eqb c "-".

(** The loop [for i < len(v) && '0' <= v[i] && v[i] <= '9' { i++ }]:
    returns [(v[:i], v[i:])]. *)
Fixpoint digits (v : string) : string * string :=
  match v with
  | String c rest =>
      if isDigit c then let (t, r) := digits rest in (String c t, r)
      else ("", v)
  | EmptyString => ("", "")
  end.

Definition parseInt (v : string) : option (string * string) :=
  match v with
  | EmptyString => None
  | String c _ =>
      if negb (isDigit c) then None
      else
        let (t, rest) := digits v in
        if Ascii.eqb c "0" && negb (Nat.eqb (String.length t) 1) then None
        else Some (t, rest)
  end.

Definition isBadNum (v : string) : bool :=
  let (t, rest) := digits v in
  String.eqb rest "" && Nat.ltb 1 (String.length t)
  && match v with String c _ => Ascii.eqb c "0" | EmptyString => false end.

Definition isNum (v : string) : bool :=
  String.eqb (snd (digits v)) "".

(** [scanPrerelease s ident taken]: [s] is [v[i:]], [ident] is
    [v[start:i]] and [taken] is [v[:i]] of the loop in parsePrerelease. *)
Fixpoint scanPrerelease (s ident taken : string) : option (string * string) :=
  match s with
  | String c rest =>
      if Ascii.eqb c "+" then
        if String.eqb ident "" || isBadNum ident then None else Some (taken, s)
      else if negb (isIdentChar c) && negb (Ascii.eqb c ".") then None
      else if Ascii.eqb c "." then
        if String.eqb ident "" || isBadNum ident then None
        else scanPrerelease rest "" (taken +:+ String c "")
      else scanPrerelease rest (ident +:+ String c "") (taken +:+ String c "")
  | EmptyString =>
      if String.eqb ident "" || isBadNum ident then None else Some (taken, s)
  end.

Definition parsePrerelease (v : string) : option (string * string) :=
  match v with
  | String c rest =>
      if Ascii.eqb c "-" then scanPrerelease rest "" (String c "") else None
  | EmptyString => None
  end.

Fixpoint scanBuild (s ident taken : string) : option (string * string) :=
  match s with
  | String c rest =>
      if negb (isIdentChar c) && negb (Ascii.eqb c ".") then None
      else if Ascii.eqb c "." then
        if String.eqb ident "" then None
        else scanBuild rest "" (taken +:+ String c "")
      else scanBuild rest (ident +:+ String c "") (taken +:+ String c "")
  | EmptyString =>
      if String.eqb ident "" then None else Some (taken, s)
  end.

Definition parseBuild (v : string) : option (string * string) :=
  match v with
  | String c rest =>
      if Ascii.eqb c "+" then scanBuild rest "" (String c "") else None
  | EmptyString => None
  end.

Definition starts_with (c : ascii) (v : string) : bool :=
  match v with String d _ => Ascii.eqb d c | EmptyString => false end.

Definition tail (v : string) : string :=
  match v with String _ rest => rest | EmptyString => "" end.

(** The last part of [parse]: optional pre-release, optional build, and
    nothing after them. *)
Definition parse_suffix (ma mi pa v : string) : option parsed :=
  match (if starts_with "-" v then parsePrerelease v else Some ("", v)) with
  | None => None
  | Some (pre, v) =>
      match (if starts_with "+" v then parseBuild v else Some ("", v)) with
      | None => None
      | Some (bu, v) =>
          if String.eqb v "" then
            Some {| major := ma; minor := mi; patch := pa; short := "";
                    prerelease := pre; build := bu |}
          else None
      end
  end.

Definition parse (v : string) : option parsed :=
  if negb (starts_with "v" v) then None else
  match parseInt (tail v) with
  | None => None
  | Some (ma, v) =>
      if String.eqb v "" then
        Some {| major := ma; minor := "0"; patch := "0"; short := ".0.0";
                prerelease := ""; build := "" |}
      else if negb (starts_with "." v) then None else
      match parseInt (tail v) with
      | None => None
      | Some (mi, v) =>
          if String.eqb v "" then
            Some {| major := ma; minor := mi; patch := "0"; short := ".0";
                    prerelease := ""; build := "" |}
          else if negb (starts_with "." v) then None else
          match parseInt (tail v) with
          | None => None
          | Some (pa, v) => parse_suffix ma mi pa v
          end
      end
  end.

Definition compareInt (x y : string) : Z :=
  if String.eqb x y then 0
  else if Nat.ltb (String.length x) (String.length y) then -1
  else if Nat.ltb (String.length y) (String.length x) then 1
  else if String.ltb x y then -1 else 1.

(** The loop [for i < len(x) && x[i] != '.' { i++ }] of nextIdent. *)
Fixpoint nextIdent (x : string) : string * string :=
  match x with
  | String c rest =>
      if Ascii.eqb c "." then ("", x)
      else let (dx, r) := nextIdent rest in (String c dx, r)
  | EmptyString => ("", "")
  end.

(** The loop of comparePrerelease.  Every round removes at least one
    byte of [x]; [fuel] counts the rounds that are left. *)
Fixpoint comparePrerelease_loop (fuel : nat) (x y : string) : Z :=
  if String.eqb x "" then -1
  else if String.eqb y "" then 1
  else
    match fuel with
    | O => 0
    | S fuel' =>
        let (dx, x) := nextIdent (tail x) in
        let (dy, y) := nextIdent (tail y) in
        if negb (String.eqb dx dy) then
          let ix := isNum dx in
          let iy := isNum dy in
          if negb (Bool.eqb ix iy) then (if ix then -1 else 1)
          else if ix && Nat.ltb (String.length dx) (String.length dy) then -1
          else if ix && Nat.ltb (String.length dy) (String.length dx) then 1
          else if String.ltb dx dy then -1 else 1
        else comparePrerelease_loop fuel' x y
    end.

Definition comparePrerelease (x y : string) : Z :=
  if String.eqb x y then 0
  else if String.eqb x "" then 1
  else if String.eqb y "" then -1
  else comparePrerelease_loop (String.length x) x y.

Definition Compare (v w : string) : Z :=
  match parse v, parse w with
  | None, None => 0
  | None, Some _ => -1
  | Some _, None => 1
  | Some pv, Some pw =>
      let c := compareInt (major pv) (major pw) in
      if negb (c =? 0) then c else
      let c := compareInt (minor pv) (minor pw) in
      if negb (c =? 0) then c else
      let c := compareInt (patch pv) (patch pw) in
      if negb (c =? 0) then c else
      comparePrerelease (prerelease pv) (prerelease pw)
  end.

End semver.

(** One round of the loop, on two identifiers that differ. *)
Definition compareIdent (dx dy : string) : Z :=
  let ix := semver.isNum dx in
  let iy := semver.isNum dy in
  if negb (Bool.eqb ix iy) then (if ix then -1 else 1)
  else if ix && Nat.ltb (String.length dx) (String.length dy) then -1
  else if ix && Nat.ltb (String.length dy) (String.length dx) then 1
  else if String.ltb dx dy then -1 else 1.

(** A pre-release as [parse] returns it: empty, or a hyphen and more. *)
Definition prerelease_shape (x : string) : Prop :=
  x = "" \/ semver.starts_with "-" x = true.

(** ** package sort

    [sort.Slice] sorts a slice of at most twelve elements by the insertion
    sort below (insertionSortLessFunc in the Go library); longer slices go
    through its pattern-defeating quicksort, which is not reproduced here:
    both return a permutation of the slice, and that is all the general
    statements below use.  The statements that depend on the exact order
    are about slices of four elements.

    [sink less x left] is the inner loop
    [for j := i; j > a && less(j, j-1); j-- { swap(j, j-1) }]:
    [left] is [data[a:i]] read from [i-1] downwards and [x] is the element
    that starts at [i]; the result is [data[a:i+1]] in the same direction. *)

Fixpoint sink {A : Type} (less : A -> A -> bool) (x : A) (left : list A) : list A :=
  match left with
  | [] => [x]
  | y :: left' => if less x y then y :: sink less x left' else x :: left
  end.

Definition sort_Slice {A : Type} (data : list A) (less : A -> A -> bool) : list A :=
  reverse (fold_left (fun left x => sink less x left) data []).

(** ** The outside world: etcd, the network and the clock *)

(** [store] is the etcd keyspace.  [transport] says, for the client calls to
    come, whether each reaches etcd: [Some e] makes that call return [e]
    without effect (unreachable store, deadline of the call's context
    exceeded); when the list is used up every call gets through. *)
Record World : Type := {
  store : gmap string string;
  transport : list error;
  clock : Time
}.

Definition with_store (w : World) (m : gmap string string) : World :=
  {| store := m; transport := transport w; clock := clock w |}.

Definition with_transport (w : World) (t : list error) : World :=
  {| store := store w; transport := t; clock := clock w |}.

(** The fate of the next client call. *)
Definition next_fault (w : World) : error :=
  match transport w with
  | e :: _ => e
  | [] => None
  end.

Definition called (w : World) : World :=
  with_transport w (List.tl (transport w)).

Definition key_le (a b : KeyValue) : Prop := String.leb (Key a) (Key b) = true.

#[global] Instance key_le_dec (a b : KeyValue) : Decision (key_le a b) :=
  decide (String.leb (Key a) (Key b) = true).

(** A range read returns the keys in ascending byte order. *)
Definition range (m : gmap string string) (p : string -> bool) : list KeyValue :=
  merge_sort key_le
    (List.filter (fun kv => p (Key kv))
       ((fun e => {| Key := fst e; Value := snd e |}) <$> map_to_list m)).

Definition response (kvs : list KeyValue) : GetResponse :=
  {| Kvs := kvs; Count := Z.of_nat (length kvs) |}.

Definition no_response : GetResponse := {| Kvs := []; Count := 0 |}.

Definition etcd_Get (m : gmap string string) (key : string) : GetResponse :=
  match m !! key with
  | Some v => response [{| Key := key; Value := v |}]
  | None => response []
  end.

Definition etcd_Get_WithPrefix (m : gmap string string) (prefix : string)
  : GetResponse :=
  response (range m (String.prefix prefix)).

Definition etcd_Delete (m : gmap string string) (key : string)
  : DeleteResponse * gmap string string :=
  match m !! key with
  | Some _ => ({| Deleted := 1 |}, delete key m)
  | None => ({| Deleted := 0 |}, m)
  end.

(** One call, executed atomically. *)
Definition exec {R : Type} (c : Call R) (w : World) : R * World :=
  match c in Call R return R * World with
  | client_Get key =>
      match next_fault w with
      | Some e => ((no_response, Some e), called w)
      | None => ((etcd_Get (store w) key, None), called w)
      end
  | client_Get_WithPrefix prefix =>
      match next_fault w with
      | Some e => ((no_response, Some e), called w)
      | None => ((etcd_Get_WithPrefix (store w) prefix, None), called w)
      end
  | client_Put key val =>
      match next_fault w with
      | Some e => (Some e, called w)
      | None => (None, with_store (called w) (<[key := val]> (store w)))
      end
  | client_Delete key =>
      match next_fault w with
      | Some e => (({| Deleted := 0 |}, Some e), called w)
      | None =>
          let (res, m) := etcd_Delete (store w) key in
          ((res, None), with_store (called w) m)
      end
  | time_Now => (clock w, w)
  end.

Inductive Outcome (A : Type) : Type :=
| Returns (a : A)
| Panics (msg : string).

Arguments Returns {A} a.
Arguments Panics {A} msg.

(** A whole computation, with nothing else running in between. *)
Fixpoint run {A : Type} (p : Go A) (w : World) : Outcome A * World :=
  match p with
  | Return a => (Returns a, w)
  | Panic msg => (Panics msg, w)
  | Do c k => let (r, w') := exec c w in run (k r) w'
  end.

(** One call of a computation; a finished computation stays as it is. *)
Definition step {A : Type} (p : Go A) (w : World) : Go A * World :=
  match p with
  | Do c k => let (r, w') := exec c w in (k r, w')
  | _ => (p, w)
  end.

(** Goroutines that share the world: [schedule] names, call by call, the
    goroutine that performs its next call. *)
Fixpoint interleave {A : Type} (schedule : list nat) (pool : list (Go A))
    (w : World) : list (Go A) * World :=
  match schedule with
  | [] => (pool, w)
  | i :: schedule' =>
      match pool !! i with
      | Some p =>
          let (p', w') := step p w in
          interleave schedule' (<[i := p']> pool) w'
      | None => interleave schedule' pool w
      end
  end.

(** The calls one after another, each run to its end before the next. *)
Fixpoint run_each {A : Type} (calls : list (Go A)) (w : World)
  : list (Outcome A) * World :=
  match calls with
  | [] => ([], w)
  | p :: calls' =>
      let (o, w') := run p w in
      let (os, w'') := run_each calls' w' in
      (o :: os, w'')
  end.

(** ** The transcoding and serialization libraries

    [sigs.k8s.io/yaml] and [encoding/json] are used through four functions.
    The repository is modelled over any implementation of them.
    [json_Unmarshal data] is [json.Unmarshal(data, &schemaData)] on a
    zero [schemaData]: the decoded message and the error. *)

Class Codec : Type := {
  yaml_YAMLToJSON : string -> string * error;
  yaml_JSONToYAML : string -> string * error;
  json_Marshal : ConfigSchemaData -> string * error;
  json_Unmarshal : string -> ConfigSchemaData * error
}.

(** ** package repository *)

(** os.Getenv: the value of the variable, empty when it is not set. *)
Definition os_Getenv (environ : gmap string string) (name : string) : string :=
  default "" (environ !! name).

(** The package variables (repository.go, 20-23). [endpoint] is read from
    the process environment when the package is loaded; [timeout] is a
    time.Duration, in nanoseconds. *)
Definition endpoint (environ : gmap string string) : string :=
  os_Getenv environ "ETCD_ADDRESS".

Definition timeout : Z := 5 * 1000000000.

Record clientv3_Config : Type := {
  Endpoints : list string;
  DialTimeout : Z
}.

(** The client handle: the configuration it was made from.  Connecting is
    left to the calls, whose failures are the [transport] of the world. *)
Record clientv3_Client : Type := { config : clientv3_Config }.

Definition clientv3_New (cfg : clientv3_Config) : clientv3_Client * error :=
  ({| config := cfg |}, None).

Record EtcdRepository : Type := { client : clientv3_Client }.

(** NewClient (repository.go, 29-37): no parameter. *)
Definition NewClient (environ : gmap string string) : EtcdRepository * error :=
  let (cli, err) :=
    clientv3_New {| Endpoints := [endpoint environ]; DialTimeout := timeout |} in
  ({| client := cli |}, err).

Definition set_Schema (d : ConfigSchemaData) (s : string) : ConfigSchemaData :=
  {| Schema := s; CreationTime := CreationTime d |}.

(** The two errors the repository makes itself. *)
Definition already_exists (key : string) : error :=
  Some (errors_New ("Key '" +:+ key +:+ "' already exists!")).

Definition not_found (key : string) : error :=
  Some (errors_New ("No schema with key '" +:+ key +:+ "' found!")).

(** The version segment of a key: [tokens[3]], when there is one. *)
Definition key_version (key : string) : option string :=
  strings_Split key "/" !! 3%nat.

Definition version_of (c : ConfigSchema) : string :=
  GetVersion (GetSchemaDetails c).

(** The order that sort.Slice is given in GetSchemasByPrefix, on versions. *)
Definition semver_less (a b : string) : bool := semver.Compare a b =? -1.

(** Modelled from the spec: Format of the Key Codec, the four fields of an
    identifier joined by the separator.  The callers that build the keys
    are not among the sources. *)
Definition format_key (d : ConfigSchemaDetails) : string :=
  Organization d +:+ "/" +:+ Namespace d +:+ "/" +:+ SchemaName d
  +:+ "/" +:+ Version d.

(** [v] does not come after [w] in precedence: [w] is not lower. *)
Definition not_lower (v w : string) : Prop := semver.Compare w v <> -1.

Section repository.

Context `{Codec}.

(** SaveConfigSchema (repository.go, 43-71).  The tracing span and the
    context deadline do not appear: a call that misses its deadline is a
    failing call of the [transport]. *)
Definition SaveConfigSchema (key schema : string) : Go error :=
  r <- call (client_Get key) ;;
  let (res, err) := r in
  if err is Some _ then Return err else
  if 0 <? Count res then
    Return (Some (errors_New ("Key '" +:+ key +:+ "' already exists!")))
  else
  let (schemaJson, err) := yaml_YAMLToJSON schema in
  if err is Some _ then Return err else
  now <- call time_Now ;;
  let schemaData := {| Schema := schemaJson;
                       CreationTime := Some (timestamppb_New now) |} in
  let (serializedData, err) := json_Marshal schemaData in
  if err is Some _ then Return err else
  err <- call (client_Put key serializedData) ;;
  Return err.

(** What a reader gets from a stored value: lines 87-96 of
    GetConfigSchema, and the same lines 132-140 of GetSchemasByPrefix. *)
Definition read_back (value : string) : option ConfigSchemaData * error :=
  let (schemaData, err) := json_Unmarshal value in
  if err is Some _ then (None, err) else
  let (schemaYaml, err) := yaml_JSONToYAML (GetSchema schemaData) in
  if err is Some _ then (None, err) else
  (Some (set_Schema schemaData schemaYaml), None).

(** GetConfigSchema (repository.go, 73-97) *)
Definition GetConfigSchema (key : string) : Go (option ConfigSchemaData * error) :=
  r <- call (client_Get key) ;;
  let (resp, err) := r in
  if err is Some _ then Return (None, err) else
  match Kvs resp with
  | [] => Return (None, None)
  | kv0 :: _ => Return (read_back (Value kv0))
  end.

(** DeleteConfigSchema (repository.go, 99-114) *)
Definition DeleteConfigSchema (key : string) : Go error :=
  r <- call (client_Delete key) ;;
  let (res, err) := r in
  if err is Some _ then Return err else
  if 0 <? Deleted res then Return None else
  Return (Some (errors_New ("No schema with key '" +:+ key +:+ "' found!"))).

(** The loop of GetSchemasByPrefix (lines 130-145): [schemas] holds the
    entries filled so far; an error leaves the function with
    [(nil, err)]. *)
Fixpoint fill (kvs : list KeyValue) (schemas : list ConfigSchema)
  : Go (list ConfigSchema * error) :=
  match kvs with
  | [] => Return (schemas, None)
  | schemaKv :: kvs' =>
      schemaDetails <- getSchemaDetailsFromKey (Key schemaKv) ;;
      match read_back (Value schemaKv) with
      | (Some schemaData, _) =>
          fill kvs' (schemas ++ [{| SchemaDetails := schemaDetails;
                                    SchemaData := schemaData |}])
      | (None, err) => Return ([], err)
      end
  end.

Definition version_less (a b : ConfigSchema) : bool :=
  semver.Compare (GetVersion (GetSchemaDetails a))
                 (GetVersion (GetSchemaDetails b)) =? -1.

(** GetSchemasByPrefix (repository.go, 116-150) *)
Definition GetSchemasByPrefix (prefix : string)
  : Go (list ConfigSchema * error) :=
  r <- call (client_Get_WithPrefix prefix) ;;
  let (res, err) := r in
  if err is Some _ then Return ([], err) else
  if Count res =? 0 then Return ([], None) else
  r <- fill (Kvs res) [] ;;
  let (schemas, err) := r in
  if err is Some _ then Return ([], err) else
  Return (sort_Slice schemas version_less, None).

(** GetLatestVersionByPrefix (repository.go, 152-165) *)
Definition GetLatestVersionByPrefix (prefix : string) : Go (string * error) :=
  r <- GetSchemasByPrefix prefix ;;
  let (schemas, err) := r in
  if err is Some _ then Return ("", err) else
  if Nat.eqb (length schemas) 0 then Return ("", None) else
  s <- index schemas (length schemas - 1) ;;
  Return (GetVersion (GetSchemaDetails s), None).

(** [entry_of kv c]: [c] is the entry that the loop builds from [kv]. *)
Definition entry_of (kv : KeyValue) (c : ConfigSchema) : Prop :=
  getSchemaDetailsFromKey (Key kv) = Return (SchemaDetails c)
  /\ read_back (Value kv) = (Some (SchemaData c), None).

End repository.

(** ** A Save, call by call *)

Section save_steps.

Context `{Codec}.



End save_steps.

(** ** A codec to run the repository with

    The statements below hold for every [Codec].  To run the repository on
    a concrete store one implementation is needed; this one keeps the
    schema text as it is and writes the envelope as
    [seconds.nanos|schema], numbers in decimal. *)

Module Plain.

Definition decimal (z : Z) : string := NilZero.string_of_int (Z.to_int z).

Definition number (s : string) : option Z :=
  Z.of_int <$> NilZero.int_of_string s.

(** [cut sep s]: the text before the first [sep] and the text after it. *)
Fixpoint cut (sep : ascii) (s : string) : option (string * string) :=
  match s with
  | EmptyString => None
  | String c rest =>
      if Ascii.eqb c sep then Some ("", rest)
      else
        match cut sep rest with
        | Some (a, b) => Some (String c a, b)
        | None => None
        end
  end.

Definition marshal (d : ConfigSchemaData) : string * error :=
  match CreationTime d with
  | Some t =>
      (decimal (Seconds t) +:+ "." +:+ decimal (Nanos t) +:+ "|" +:+ Schema d,
       None)
  | None => ("|" +:+ Schema d, None)
  end.

Definition zero : ConfigSchemaData := {| Schema := ""; CreationTime := None |}.

Definition unmarshal (data : string) : ConfigSchemaData * error :=
  match cut "|" data with
  | None => (zero, Some (codec_error "unexpected end of input"))
  | Some ("", schema) => ({| Schema := schema; CreationTime := None |}, None)
  | Some (stamp, schema) =>
      match cut "." stamp with
      | Some (s, n) =>
          match number s, number n with
          | Some s, Some n =>
              ({| Schema := schema;
                  CreationTime := Some {| Seconds := s; Nanos := n |} |}, None)
          | _, _ => (zero, Some (codec_error "invalid number"))
          end
      | None => (zero, Some (codec_error "invalid timestamp"))
      end
  end.

#[global] Instance codec : Codec := {|
  yaml_YAMLToJSON := fun text => (text, None);
  yaml_JSONToYAML := fun text => (text, None);
  json_Marshal := marshal;
  json_Unmarshal := unmarshal
|}.

(** A reachable, empty etcd at some time of day. *)
Definition empty_world : World :=
  {| store := ∅; transport := [];
     clock := {| Unix := 1700000000; Nanosecond := 42 |} |}.

End Plain.

(** ** Concrete stores *)

(** The world after saving [keys], one after another, in an empty etcd. *)
Definition saved (keys : list string) : World :=
  snd (run_each ((fun key => SaveConfigSchema key "a: 1") <$> keys)
         Plain.empty_world).

Definition saved_once : World := saved ["org/ns/name/v1.0.0"].

(** What is read back after the one Save of [saved_once]. *)
Definition first_envelope : ConfigSchemaData :=
  {| Schema := "a: 1";
     CreationTime := Some {| Seconds := 1700000000; Nanos := 42 |} |}.

Definition first_entry : ConfigSchema :=
  {| SchemaDetails := {| Organization := "org"; Namespace := "ns";
                         SchemaName := "name"; Version := "v1.0.0" |};
     SchemaData := first_envelope |}.

Definition unprefixed : World :=
  saved ["org/ns/name/1.2.0"; "org/ns/name/1.10.0";
         "org/ns/name/1.3.0"; "org/ns/name/0.9.0"].

Definition prefixed : World :=
  saved ["org/ns/name/v1.2.0"; "org/ns/name/v1.10.0";
         "org/ns/name/v1.3.0"; "org/ns/name/v0.9.0"].

(** A store with a key of five segments and a key with an empty segment. *)
Definition foreign_keys : World :=
  saved ["org/ns/name/v1.0.0/extra"; "org//name/v2.0.0"].

Definition versions_listed (o : Outcome (list ConfigSchema * error))
  : option (list string) :=
  match o with
  | Returns (schemas, None) => Some (version_of <$> schemas)
  | _ => None
  end.

Definition details_listed (o : Outcome (list ConfigSchema * error))
  : option (list ConfigSchemaDetails) :=
  match o with
  | Returns (schemas, None) => Some (SchemaDetails <$> schemas)
  | _ => None
  end.

(** Two goroutines that save different schemas under one key. *)
Definition two_savers : list (Go error) :=
  [SaveConfigSchema "org/ns/name/v1.0.0" "a: 1";
   SaveConfigSchema "org/ns/name/v1.0.0" "a: 2"].

Definition deadline_exceeded : error_value :=
  client_error "context deadline exceeded".

(** ** More concrete stores *)

(** A codec as [Plain.codec], except that it takes no schema text that
    starts with a tab, which YAML does not allow there. *)
Definition tab_rejected : error_value :=
  codec_error "yaml: found character that cannot start any token".

Definition strict_codec : Codec := {|
  yaml_YAMLToJSON := fun text =>
    if semver.starts_with "009" text then ("", Some tab_rejected)
    else (text, None);
  yaml_JSONToYAML := fun text => (text, None);
  json_Marshal := Plain.marshal;
  json_Unmarshal := Plain.unmarshal
|}.

Definition tabbed_schema : string := String "009" "a: 1".

(** [saved_once] with one more value, which is not an envelope. *)
Definition corrupted : World :=
  with_store saved_once (<["org/ns/name/v2.0.0" := "garbage"]> (store saved_once)).

(** A store that holds a key of two segments. *)
Definition short_key : World := saved ["org/ns"].

Definition unreachable : World :=
  with_transport saved_once [Some deadline_exceeded].

Definition first_key : string := "org/ns/name/v1.0.0".

Definition first_value : string := "1700000000.42|a: 1".

(** The entries of [unprefixed], in the key order of etcd. *)
Definition unprefixed_entries : list ConfigSchema :=
  (fun v => {| SchemaDetails := {| Organization := "org"; Namespace := "ns";
                                   SchemaName := "name"; Version := v |};
               SchemaData := first_envelope |})
    <$> ["0.9.0"; "1.10.0"; "1.2.0"; "1.3.0"].

(** The entries of [prefixed], in ascending precedence. *)
Definition prefixed_entries : list ConfigSchema :=
  (fun v => {| SchemaDetails := {| Organization := "org"; Namespace := "ns";
                                   SchemaName := "name"; Version := v |};
               SchemaData := first_envelope |})
    <$> ["v0.9.0"; "v1.2.0"; "v1.3.0"; "v1.10.0"].

(** * Properties *)

(** ** The models on small inputs *)

Example split_four :
  strings_Split "org/ns/name/v1.0.0" "/" = ["org"; "ns"; "name"; "v1.0.0"].
Proof. reflexivity. Qed.

Example split_empty : strings_Split "" "/" = [""].
Proof. reflexivity. Qed.

Example split_trailing : strings_Split "org/ns/" "/" = ["org"; "ns"; ""].
Proof. reflexivity. Qed.

Example semver_minor_numeric : semver.Compare "v1.2.0" "v1.10.0" = -1.
Proof. reflexivity. Qed.

Example semver_without_v : semver.Compare "1.2.0" "1.10.0" = 0.
Proof. reflexivity. Qed.

Example semver_invalid_lowest : semver.Compare "1.2.0" "v0.0.1" = -1.
Proof. reflexivity. Qed.

Example semver_prerelease :
  semver.Compare "v1.0.0-rc.1" "v1.0.0" = -1
  /\ semver.Compare "v1.0.0-alpha.2" "v1.0.0-alpha.10" = -1
  /\ semver.Compare "v1.0.0-alpha" "v1.0.0-alpha.1" = -1
  /\ semver.Compare "v1.0.0-1" "v1.0.0-alpha" = -1
  /\ semver.Compare "v1.0.0+b1" "v1.0.0+b2" = 0.
Proof. repeat split; reflexivity. Qed.

Example sort_Slice_numbers : sort_Slice [3; 1; 2; 1] Z.ltb = [1; 1; 2; 3].
Proof. reflexivity. Qed.

Example plain_envelope :
  Plain.unmarshal (fst (Plain.marshal
     {| Schema := "a: 1"; CreationTime := Some {| Seconds := 17; Nanos := 5 |} |}))
  = ({| Schema := "a: 1"; CreationTime := Some {| Seconds := 17; Nanos := 5 |} |},
     None).
Proof. reflexivity. Qed.

Example save_then_get :
  fst (run (GetConfigSchema "org/ns/name/v1.0.0") saved_once)
  = Returns (Some first_envelope, None).
Proof. vm_compute. reflexivity. Qed.

(** ** semver: the rounds of comparePrerelease *)

Lemma nextIdent_shorter (x : string) :
  (String.length (snd (semver.nextIdent x)) <= String.length x)%nat.
Proof.
  induction x as [|c x IH]; simpl; [lia|].
  destruct (Ascii.eqb c "."); simpl; [lia|].
  destruct (semver.nextIdent x) as [dx r]. simpl in *. lia.
Qed.

(** The loop never runs out of rounds: with at least [len(x)] of them the
    result does not depend on their number. *)
Lemma comparePrerelease_loop_rounds (fuel fuel' : nat) (x y : string) :
  (String.length x <= fuel)%nat ->
  (String.length x <= fuel')%nat ->
  semver.comparePrerelease_loop fuel x y = semver.comparePrerelease_loop fuel' x y.
Proof.
  revert fuel' x y.
  induction fuel as [|fuel IH]; intros fuel' x y Hf Hf'.
  - destruct x as [|c x]; [|simpl in Hf; lia].
    destruct fuel'; reflexivity.
  - destruct x as [|c x]; [destruct fuel'; reflexivity|].
    destruct fuel' as [|fuel']; [simpl in Hf'; lia|].
    simpl. destruct (String.eqb y ""); [reflexivity|].
    pose proof (nextIdent_shorter x) as Hx.
    destruct (semver.nextIdent x) as [dx x'].
    destruct (semver.nextIdent (semver.tail y)) as [dy y'].
    destruct (negb (String.eqb dx dy)); [reflexivity|].
    simpl in Hf, Hf', Hx. apply IH; lia.
Qed.

(** ** Running computations *)

Lemma run_bind {A B : Type} (m : Go A) (f : A -> Go B) (w : World) :
  run (x <- m ;; f x) w
  = match run m w with
    | (Returns a, w') => run (f a) w'
    | (Panics msg, w') => (Panics msg, w')
    end.
Proof.
  revert w. induction m as [a | msg | R c k IH]; intros w; simpl; try reflexivity.
  destruct (exec c w) as [r w']. apply IH.
Qed.

Lemma run_call {R B : Type} (c : Call R) (f : R -> Go B) (w : World) :
  run (x <- call c ;; f x) w = run (f (fst (exec c w))) (snd (exec c w)).
Proof. simpl. destruct (exec c w); reflexivity. Qed.

(** [run] is [step] repeated until the computation is finished. *)
Lemma run_step {A : Type} (p : Go A) (w : World) :
  run p w = run (fst (step p w)) (snd (step p w)).
Proof. destruct p; simpl; try reflexivity. destruct (exec c w); reflexivity. Qed.

(** One goroutine alone: the schedule steps it, and [run] finishes it. *)
Lemma interleave_alone {A : Type} (schedule : list nat) (p : Go A) (w : World) :
  exists p' w',
    interleave schedule [p] w = ([p'], w') /\ run p' w' = run p w.
Proof.
  revert p w. induction schedule as [|i schedule IH]; intros p w; simpl.
  - eauto.
  - destruct i as [|i]; simpl.
    + destruct (step p w) as [p1 w1] eqn:Hs.
      destruct (IH p1 w1) as (p' & w' & Hi & Hr).
      exists p', w'. split; [exact Hi|].
      rewrite Hr, (run_step p w), Hs. reflexivity.
    + apply IH.
Qed.

Lemma run_each_cons {A : Type} (p : Go A) (calls : list (Go A)) (w : World) :
  run_each (p :: calls) w
  = (fst (run p w) :: fst (run_each calls (snd (run p w))),
     snd (run_each calls (snd (run p w)))).
Proof.
  simpl. destruct (run p w) as [o w']. simpl.
  destruct (run_each calls w'); reflexivity.
Qed.

Lemma transport_empty (w : World) :
  transport w = [] -> next_fault w = None /\ called w = w.
Proof.
  intros Ht. unfold next_fault, called, with_transport. rewrite Ht.
  destruct w; simpl in *. subst. auto.
Qed.

Lemma exec_Get_reached (key : string) (w : World) :
  next_fault w = None ->
  exec (client_Get key) w = ((etcd_Get (store w) key, None), called w).
Proof. intros Hn. simpl. rewrite Hn. reflexivity. Qed.

Lemma exec_Get_failed (key : string) (w : World) (e : error_value) :
  next_fault w = Some e ->
  exec (client_Get key) w = ((no_response, Some e), called w).
Proof. intros Hn. simpl. rewrite Hn. reflexivity. Qed.

Lemma etcd_Get_present (m : gmap string string) (key v : string) :
  m !! key = Some v -> etcd_Get m key = response [{| Key := key; Value := v |}].
Proof. intros Hk. unfold etcd_Get. rewrite Hk. reflexivity. Qed.

Lemma etcd_Get_absent (m : gmap string string) (key : string) :
  m !! key = None -> etcd_Get m key = response [].
Proof. intros Hk. unfold etcd_Get. rewrite Hk. reflexivity. Qed.

(** ** Save, Get and Delete on one key *)

Section single_key.

Context `{Codec}.

(** Save on a key that holds a record: an error, and the same store. *)
Lemma SaveConfigSchema_present (key schema v : string) (w : World) :
  store w !! key = Some v ->
  store (snd (run (SaveConfigSchema key schema) w)) = store w
  /\ (exists e, fst (run (SaveConfigSchema key schema) w) = Returns (Some e))
  /\ (next_fault w = None ->
      run (SaveConfigSchema key schema) w = (Returns (already_exists key), called w)).
Proof.
  intros Hk. unfold SaveConfigSchema. rewrite run_call.
  destruct (next_fault w) as [e|] eqn:Hn.
  - rewrite (exec_Get_failed _ _ _ Hn). simpl.
    split; [reflexivity|]. split; [eauto | discriminate].
  - rewrite (exec_Get_reached _ _ Hn), (etcd_Get_present _ _ _ Hk). simpl.
    split; [reflexivity|]. split; [|reflexivity]. eauto.
Qed.

(** A Save that returns nil found no record and wrote the envelope of its
    schema. *)
Lemma SaveConfigSchema_success (key schema : string) (w w' : World) :
  run (SaveConfigSchema key schema) w = (Returns None, w') ->
  exists json value,
    yaml_YAMLToJSON schema = (json, None)
    /\ json_Marshal {| Schema := json;
                       CreationTime := Some (timestamppb_New (clock w)) |}
       = (value, None)
    /\ store w !! key = None
    /\ store w' = <[key := value]> (store w).
Proof.
  unfold SaveConfigSchema. rewrite run_call. simpl.
  destruct (next_fault w) as [e|] eqn:Hn; simpl; [discriminate|].
  unfold etcd_Get. destruct (store w !! key) as [v|] eqn:Hk; simpl; [discriminate|].
  destruct (yaml_YAMLToJSON schema) as [json [e|]] eqn:Hy; simpl; [discriminate|].
  destruct (json_Marshal _) as [value [e|]] eqn:Hm; simpl; [discriminate|].
  destruct (next_fault (called w)) as [e|] eqn:Hn'; simpl; [discriminate|].
  intros [= <-]. exists json, value. simpl. auto.
Qed.

Lemma GetConfigSchema_present (key v : string) (w : World) :
  store w !! key = Some v ->
  next_fault w = None ->
  run (GetConfigSchema key) w = (Returns (read_back v), called w).
Proof.
  intros Hk Hn. unfold GetConfigSchema. rewrite run_call.
  rewrite (exec_Get_reached _ _ Hn), (etcd_Get_present _ _ _ Hk). reflexivity.
Qed.

Lemma GetConfigSchema_no_record (key : string) (w : World) :
  store w !! key = None ->
  next_fault w = None ->
  fst (run (GetConfigSchema key) w) = Returns (None, None).
Proof.
  intros Hk Hn. unfold GetConfigSchema. rewrite run_call.
  rewrite (exec_Get_reached _ _ Hn), (etcd_Get_absent _ _ Hk). reflexivity.
Qed.

Lemma GetConfigSchema_Returns (key : string) (w : World) (d : ConfigSchemaData) :
  fst (run (GetConfigSchema key) w) = Returns (Some d, None) ->
  exists value, store w !! key = Some value /\ read_back value = (Some d, None).
Proof.
  unfold GetConfigSchema. rewrite run_call. simpl exec.
  destruct (next_fault w) as [e|]; simpl; [discriminate|].
  unfold etcd_Get. destruct (store w !! key) as [value|]; simpl; [|discriminate].
  intros [= Hr]. eauto.
Qed.

(** X10. Save and then Get: the schema goes through the two transcoders, one
    after the other, and the creation time is the clock reading of the
    Save, provided json.Unmarshal decodes what json.Marshal wrote. *)
Lemma SaveConfigSchema_then_Get (key s json value : string) (w0 w1 : World) :
  run (SaveConfigSchema key s) w0 = (Returns None, w1) ->
  yaml_YAMLToJSON s = (json, None) ->
  json_Marshal {| Schema := json;
                  CreationTime := Some (timestamppb_New (clock w0)) |}
    = (value, None) ->
  json_Unmarshal value
    = ({| Schema := json; CreationTime := Some (timestamppb_New (clock w0)) |},
       None) ->
  next_fault w1 = None ->
  fst (run (GetConfigSchema key) w1)
  = Returns match yaml_JSONToYAML json with
            | (yaml, None) =>
                (Some {| Schema := yaml;
                         CreationTime := Some (timestamppb_New (clock w0)) |},
                 None)
            | (_, Some e) => (None, Some e)
            end.
Proof.
  intros Hsave Hy Hm Hu Hn.
  destruct (SaveConfigSchema_success _ _ _ _ Hsave)
    as (json' & value' & Hy' & Hm' & _ & Hw).
  rewrite Hy in Hy'. injection Hy' as <-.
  rewrite Hm in Hm'. injection Hm' as <-.
  rewrite GetConfigSchema_present with (v := value);
    [|rewrite Hw; apply lookup_insert_eq|exact Hn].
  unfold read_back. rewrite Hu. simpl.
  destruct (yaml_JSONToYAML json) as [yaml [e|]]; reflexivity.
Qed.

(** C1. Save on a key that already holds a record fails, with the
    already-exists error whenever etcd answers, and changes nothing in the
    store: a Get that follows returns what it reads back from the record
    that was there, and when that record was written by a successful Save
    of [s1] it is the envelope of [s1]. *)
Theorem SaveConfigSchema_keeps_record (key v1 s2 : string) (w1 : World) :
  store w1 !! key = Some v1 ->
  let w2 := snd (run (SaveConfigSchema key s2) w1) in
  (exists e, fst (run (SaveConfigSchema key s2) w1) = Returns (Some e))
  /\ (next_fault w1 = None ->
      fst (run (SaveConfigSchema key s2) w1) = Returns (already_exists key))
  /\ store w2 = store w1
  /\ (next_fault w2 = None ->
      fst (run (GetConfigSchema key) w2) = Returns (read_back v1))
  /\ (forall (s1 : string) (w0 : World),
        run (SaveConfigSchema key s1) w0 = (Returns None, w1) ->
        exists json,
          yaml_YAMLToJSON s1 = (json, None)
          /\ json_Marshal {| Schema := json;
                             CreationTime := Some (timestamppb_New (clock w0)) |}
             = (v1, None)).
Proof.
  intros Hk w2.
  destruct (SaveConfigSchema_present key s2 v1 w1 Hk) as (Hst & Herr & Hconflict).
  split; [exact Herr|]. split; [intros Hn; rewrite (Hconflict Hn); reflexivity|].
  split; [exact Hst|]. split.
  - intros Hn. rewrite GetConfigSchema_present with (v := v1); auto.
    subst w2. rewrite Hst. exact Hk.
  - intros s1 w0 Hsave.
    destruct (SaveConfigSchema_success _ _ _ _ Hsave)
      as (json & value & Hy & Hm & _ & Hw).
    exists json. split; [exact Hy|]. rewrite Hm. f_equal.
    rewrite Hw, lookup_insert_eq in Hk. congruence.
Qed.

(** C6. Get on a key without a record returns (nil, nil) when etcd
    answers, and (nil, err) with the client's error when the call does not
    get through: absence is not an error, and it is told apart from an
    etcd that cannot be reached. *)
Theorem GetConfigSchema_absent (key : string) (w : World) :
  store w !! key = None ->
  (next_fault w = None -> fst (run (GetConfigSchema key) w) = Returns (None, None))
  /\ (forall e, next_fault w = Some e ->
        fst (run (GetConfigSchema key) w) = Returns (None, Some e)).
Proof.
  intros Hk. unfold GetConfigSchema. rewrite run_call. split.
  - intros Hn. rewrite (exec_Get_reached _ _ Hn), (etcd_Get_absent _ _ Hk).
    reflexivity.
  - intros e Hn. rewrite (exec_Get_failed _ _ _ Hn). reflexivity.
Qed.

(** C7. When etcd answers, Delete on a key without a record returns the
    not-found error and leaves the store as it is; on a key with a record
    it returns nil, the record is gone, and a Get that follows returns
    (nil, nil). *)
Theorem DeleteConfigSchema_outcomes (key : string) (w : World) :
  next_fault w = None ->
  let w' := snd (run (DeleteConfigSchema key) w) in
  (store w !! key = None ->
     fst (run (DeleteConfigSchema key) w) = Returns (not_found key)
     /\ store w' = store w)
  /\ (is_Some (store w !! key) ->
        fst (run (DeleteConfigSchema key) w) = Returns None
        /\ store w' !! key = None
        /\ (next_fault w' = None ->
            fst (run (GetConfigSchema key) w') = Returns (None, None))).
Proof.
  intros Hn w'. subst w'. unfold DeleteConfigSchema. rewrite run_call.
  simpl exec. rewrite Hn. unfold etcd_Delete. split.
  - intros Hk. rewrite Hk. simpl. auto.
  - intros [v Hk]. rewrite Hk. simpl.
    split; [reflexivity|]. split; [apply lookup_delete_eq|].
    intros Hn'. apply GetConfigSchema_no_record; [|exact Hn'].
    simpl. apply lookup_delete_eq.
Qed.

End single_key.

Lemma SaveConfigSchema_keeps_record_witness :
  store saved_once !! "org/ns/name/v1.0.0" = Some "1700000000.42|a: 1"
  /\ fst (run (SaveConfigSchema "org/ns/name/v1.0.0" "a: 2") saved_once)
     = Returns (already_exists "org/ns/name/v1.0.0")
  /\ store (snd (run (SaveConfigSchema "org/ns/name/v1.0.0" "a: 2") saved_once))
     = store saved_once
  /\ fst (run (GetConfigSchema "org/ns/name/v1.0.0")
            (snd (run (SaveConfigSchema "org/ns/name/v1.0.0" "a: 2") saved_once)))
     = Returns (Some first_envelope, None).
Proof.
  assert (Hk : store saved_once !! "org/ns/name/v1.0.0" = Some "1700000000.42|a: 1")
    by (vm_compute; reflexivity).
  destruct (SaveConfigSchema_keeps_record "org/ns/name/v1.0.0" _ "a: 2" saved_once Hk)
    as (_ & Hconflict & Hstore & Hget & _).
  split; [exact Hk|]. split; [|split].
  - apply Hconflict. vm_compute. reflexivity.
  - exact Hstore.
  - rewrite Hget; [reflexivity | vm_compute; reflexivity].
Defined.

Lemma GetConfigSchema_absent_witness :
  store Plain.empty_world !! "org/ns/name/v1.0.0" = None
  /\ fst (run (GetConfigSchema "org/ns/name/v1.0.0") Plain.empty_world)
     = Returns (None, None)
  /\ fst (run (GetConfigSchema "org/ns/name/v1.0.0")
            (with_transport Plain.empty_world [Some deadline_exceeded]))
     = Returns (None, Some deadline_exceeded).
Proof.
  split; [reflexivity|]. split.
  - apply (GetConfigSchema_absent "org/ns/name/v1.0.0" Plain.empty_world);
      reflexivity.
  - apply (GetConfigSchema_absent "org/ns/name/v1.0.0"
             (with_transport Plain.empty_world [Some deadline_exceeded]));
      reflexivity.
Defined.

Lemma DeleteConfigSchema_outcomes_witness :
  next_fault saved_once = None
  /\ is_Some (store saved_once !! "org/ns/name/v1.0.0")
  /\ fst (run (DeleteConfigSchema "org/ns/name/v1.0.0") saved_once) = Returns None
  /\ store (snd (run (DeleteConfigSchema "org/ns/name/v1.0.0") saved_once))
       !! "org/ns/name/v1.0.0" = None
  /\ fst (run (DeleteConfigSchema "org/ns/name/v1.0.0") Plain.empty_world)
     = Returns (not_found "org/ns/name/v1.0.0").
Proof.
  assert (Hn : next_fault saved_once = None) by reflexivity.
  assert (Hk : is_Some (store saved_once !! "org/ns/name/v1.0.0")).
  { exists "1700000000.42|a: 1". vm_compute. reflexivity. }
  destruct (DeleteConfigSchema_outcomes "org/ns/name/v1.0.0" saved_once Hn)
    as (_ & Hpresent).
  destruct (Hpresent Hk) as (Hr & Hgone & _).
  destruct (DeleteConfigSchema_outcomes "org/ns/name/v1.0.0" Plain.empty_world
              eq_refl) as (Habsent & _).
  destruct (Habsent eq_refl) as (Hnf & _).
  repeat split; assumption.
Defined.

(** ** sort.Slice *)

Lemma sink_Permutation {A : Type} (less : A -> A -> bool) (x : A) (left : list A) :
  sink less x left ≡ₚ x :: left.
Proof.
  induction left as [|y left IH]; simpl; [reflexivity|].
  destruct (less x y); [|reflexivity].
  rewrite IH. apply Permutation_swap.
Qed.

Lemma sort_Slice_Permutation {A : Type} (data : list A) (less : A -> A -> bool) :
  sort_Slice data less ≡ₚ data.
Proof.
  unfold sort_Slice. rewrite reverse_Permutation.
  assert (Hgen : forall left, fold_left (fun left x => sink less x left) data left
                              ≡ₚ left ++ data).
  { induction data as [|x data IH]; intros left; simpl.
    - rewrite app_nil_r. reflexivity.
    - rewrite IH, sink_Permutation. apply Permutation_middle. }
  apply (Hgen []).
Qed.

Lemma sink_fmap {A B : Type} (f : A -> B) (less : B -> B -> bool) (x : A)
    (left : list A) :
  f <$> sink (fun a b => less (f a) (f b)) x left = sink less (f x) (f <$> left).
Proof.
  induction left as [|y left IH]; [reflexivity|].
  rewrite fmap_cons. simpl sink.
  destruct (less (f x) (f y)); rewrite !fmap_cons; [rewrite IH|]; reflexivity.
Qed.

(** Sorting by a key: the keys of the result are the sorted keys. *)
Lemma sort_Slice_fmap {A B : Type} (f : A -> B) (less : B -> B -> bool)
    (data : list A) :
  f <$> sort_Slice data (fun a b => less (f a) (f b)) = sort_Slice (f <$> data) less.
Proof.
  unfold sort_Slice. rewrite fmap_reverse. f_equal.
  assert (Hgen : forall left,
    f <$> fold_left (fun left x => sink (fun a b => less (f a) (f b)) x left) data left
    = fold_left (fun left x => sink less x left) (f <$> data) (f <$> left)).
  { induction data as [|x data IH]; intros left; [reflexivity|].
    rewrite fmap_cons. simpl fold_left. rewrite IH, sink_fmap. reflexivity. }
  apply (Hgen []).
Qed.

(** ** Range reads *)

Lemma elem_of_range (m : gmap string string) (p : string -> bool) (kv : KeyValue) :
  kv ∈ range m p <-> m !! Key kv = Some (Value kv) /\ p (Key kv) = true.
Proof.
  unfold range. rewrite merge_sort_Permutation, list_elem_of_In, filter_In.
  rewrite <- list_elem_of_In, list_elem_of_fmap. split.
  - intros [[[k v] [-> Hin]] Hp]. simpl in *.
    apply elem_of_map_to_list in Hin. auto.
  - intros [Hk Hp]. split; [|exact Hp].
    exists (Key kv, Value kv). destruct kv; simpl in *.
    split; [reflexivity|]. apply elem_of_map_to_list. exact Hk.
Qed.

(** ** Key parsing *)

Lemma getSchemaDetailsFromKey_four (key t0 t1 t2 t3 : string) (more : list string) :
  strings_Split key "/" = t0 :: t1 :: t2 :: t3 :: more ->
  getSchemaDetailsFromKey key
  = Return {| Organization := t0; Namespace := t1; SchemaName := t2; Version := t3 |}.
Proof. intros Hs. unfold getSchemaDetailsFromKey. rewrite Hs. reflexivity. Qed.

Lemma getSchemaDetailsFromKey_Return (key : string) (d : ConfigSchemaDetails) :
  getSchemaDetailsFromKey key = Return d ->
  exists more,
    strings_Split key "/"
    = Organization d :: Namespace d :: SchemaName d :: Version d :: more.
Proof.
  unfold getSchemaDetailsFromKey.
  destruct (strings_Split key "/") as [|t0 [|t1 [|t2 [|t3 more]]]];
    simpl; try discriminate.
  intros [= <-]. exists more. reflexivity.
Qed.

Lemma getSchemaDetailsFromKey_pure (key : string) :
  (exists d, getSchemaDetailsFromKey key = Return d)
  \/ (exists msg, getSchemaDetailsFromKey key = Panic msg).
Proof.
  unfold getSchemaDetailsFromKey.
  destruct (strings_Split key "/") as [|t0 [|t1 [|t2 [|t3 more]]]];
    simpl; eauto.
Qed.

Lemma key_version_details (key v : string) :
  key_version key = Some v ->
  exists d, getSchemaDetailsFromKey key = Return d /\ Version d = v.
Proof.
  unfold key_version, getSchemaDetailsFromKey.
  destruct (strings_Split key "/") as [|t0 [|t1 [|t2 [|t3 more]]]];
    simpl; try discriminate.
  intros [= <-]. eauto.
Qed.

Lemma fmap_Some_Permutation {A : Type} (a : A) (l k : list A) :
  Some <$> l ≡ₚ Some <$> k -> l ≡ₚ k.
Proof.
  assert (Hid : forall m : list A, default a <$> (Some <$> m) = m).
  { induction m as [|x m IH]; [reflexivity|].
    rewrite !fmap_cons, IH. reflexivity. }
  intros Hp. apply (fmap_Permutation (default a)) in Hp.
  rewrite !Hid in Hp. exact Hp.
Qed.

(** The four versions of the ordering example, in any order, come out of
    sort.Slice in semantic-version order. *)
Lemma sort_four_versions (vs : list string) :
  vs ≡ₚ ["v1.2.0"; "v1.10.0"; "v1.3.0"; "v0.9.0"] ->
  sort_Slice vs semver_less = ["v0.9.0"; "v1.2.0"; "v1.3.0"; "v1.10.0"].
Proof.
  intros Hp. symmetry in Hp. apply permutations_Permutation in Hp.
  vm_compute in Hp.
  repeat (apply elem_of_cons in Hp as [-> | Hp]; [vm_compute; reflexivity|]).
  apply elem_of_nil in Hp. contradiction.
Qed.

(** ** Listing a prefix *)

Section listing.

Context `{Codec}.

Lemma read_back_Some (value : string) (d : ConfigSchemaData) (err : error) :
  read_back value = (Some d, err) ->
  err = None
  /\ snd (json_Unmarshal value) = None
  /\ yaml_JSONToYAML (Schema (fst (json_Unmarshal value))) = (Schema d, None)
  /\ d = set_Schema (fst (json_Unmarshal value)) (Schema d).
Proof.
  unfold read_back, GetSchema.
  destruct (json_Unmarshal value) as [d0 [e|]]; simpl; [discriminate|].
  destruct (yaml_JSONToYAML (Schema d0)) as [y [e|]]; simpl; [discriminate|].
  intros [= <- <-]. auto.
Qed.

Lemma read_back_None (value : string) (err : error) :
  read_back value = (None, err) -> is_Some err.
Proof.
  unfold read_back.
  destruct (json_Unmarshal value) as [d0 [e|]]; simpl; [intros [= <-]; eauto|].
  destruct (yaml_JSONToYAML _) as [y [e|]]; simpl; [intros [= <-]; eauto|].
  discriminate.
Qed.

Lemma fill_entries (kvs : list KeyValue) (l schemas : list ConfigSchema) :
  Forall2 entry_of kvs l ->
  fill kvs schemas = Return ((schemas ++ l)%list, None).
Proof.
  intros Hl. revert schemas.
  induction Hl as [|kv c kvs l [Hd Hr] _ IH]; intros schemas; simpl.
  - rewrite app_nil_r. reflexivity.
  - rewrite Hd. simpl. rewrite Hr. rewrite IH, <- app_assoc.
    destruct c; reflexivity.
Qed.

(** The loop returns, or panics on a key; it makes no call. *)
Lemma fill_outcomes (kvs : list KeyValue) (schemas : list ConfigSchema) :
  (exists l, Forall2 entry_of kvs l
             /\ fill kvs schemas = Return ((schemas ++ l)%list, None))
  \/ (exists e, fill kvs schemas = Return ([], Some e))
  \/ (exists msg, fill kvs schemas = Panic msg).
Proof.
  revert schemas. induction kvs as [|kv kvs IH]; intros schemas; simpl.
  - left. exists []. rewrite app_nil_r. split; [constructor | reflexivity].
  - destruct (getSchemaDetailsFromKey_pure (Key kv)) as [[d Hd] | [msg Hp]];
      rewrite ?Hd, ?Hp; simpl; [|eauto].
    destruct (read_back (Value kv)) as [[sd|] err] eqn:Hr.
    + destruct (read_back_Some _ _ _ Hr) as [-> _].
      destruct (IH (schemas ++ [{| SchemaDetails := d; SchemaData := sd |}]))
        as [(l & Hl & Hf) | [Herr | Hpanic]]; [|auto|auto].
      left. exists ({| SchemaDetails := d; SchemaData := sd |} :: l).
      rewrite Hf, <- app_assoc. split; [|reflexivity].
      constructor; [split; assumption | exact Hl].
    + destruct (read_back_None _ _ Hr) as [e ->]. right. left. eauto.
Qed.

(** A listing that gets through and decodes every record. *)
Lemma GetSchemasByPrefix_entries (prefix : string) (w : World)
    (l : list ConfigSchema) :
  next_fault w = None ->
  Forall2 entry_of (range (store w) (String.prefix prefix)) l ->
  run (GetSchemasByPrefix prefix) w
  = (Returns (sort_Slice l version_less, None), called w).
Proof.
  intros Hn Hl. unfold GetSchemasByPrefix. rewrite run_call.
  simpl exec. rewrite Hn. simpl.
  destruct (range (store w) (String.prefix prefix)) as [|kv kvs] eqn:Hrange.
  - inversion Hl. reflexivity.
  - change (Z.of_nat (length (kv :: kvs)) =? 0) with false. cbv iota.
    rewrite run_bind, (fill_entries _ _ [] Hl). reflexivity.
Qed.

(** What a listing that returned without error has done. *)
Lemma GetSchemasByPrefix_Returns (prefix : string) (w : World)
    (schemas : list ConfigSchema) :
  fst (run (GetSchemasByPrefix prefix) w) = Returns (schemas, None) ->
  next_fault w = None
  /\ exists l, Forall2 entry_of (range (store w) (String.prefix prefix)) l
               /\ schemas = sort_Slice l version_less.
Proof.
  unfold GetSchemasByPrefix. rewrite run_call. simpl exec.
  destruct (next_fault w) as [e|] eqn:Hn; simpl; [discriminate|].
  intros Hret. split; [reflexivity|].
  destruct (range (store w) (String.prefix prefix)) as [|kv kvs] eqn:Hrange.
  - simpl in Hret. injection Hret as <-.
    exists []. split; [constructor | reflexivity].
  - change (Z.of_nat (length (kv :: kvs)) =? 0) with false in Hret.
    cbv iota in Hret. rewrite run_bind in Hret.
    destruct (fill_outcomes (kv :: kvs) []) as [(l & Hl & Hf) | [[e Hf] | [msg Hf]]];
      rewrite Hf in Hret; simpl in Hret; try discriminate.
    injection Hret as <-. exists l. split; [exact Hl | reflexivity].
Qed.

(** C8. The latest version is the version of the last entry of the
    listing, the empty string when the listing is empty; an error or a
    panic of the listing is passed on. *)
Theorem GetLatestVersionByPrefix_last (prefix : string) (w : World) :
  fst (run (GetLatestVersionByPrefix prefix) w)
  = match fst (run (GetSchemasByPrefix prefix) w) with
    | Returns (schemas, None) =>
        Returns (default "" (version_of <$> last schemas), None)
    | Returns (_, Some e) => Returns ("", Some e)
    | Panics msg => Panics msg
    end.
Proof.
  unfold GetLatestVersionByPrefix. rewrite run_bind.
  destruct (run (GetSchemasByPrefix prefix) w) as [[[schemas [e|]] | msg] w'];
    simpl; try reflexivity.
  destruct schemas as [|c schemas]; [reflexivity|].
  rewrite last_lookup. unfold index. simpl length. simpl Nat.eqb. cbv iota.
  replace (S (length schemas) - 1)%nat with (pred (S (length schemas))) by lia.
  destruct (lookup_lt_is_Some_2 (c :: schemas) (pred (S (length schemas))))
    as [s Hs]; [simpl; lia|].
  rewrite Hs. reflexivity.
Qed.

Lemma entries_details (kvs : list KeyValue) (l : list ConfigSchema) :
  Forall2 entry_of kvs l ->
  (getSchemaDetailsFromKey ∘ Key) <$> kvs = Return <$> (SchemaDetails <$> l).
Proof.
  induction 1 as [|kv c kvs l [Hd _] _ IH]; [reflexivity|].
  rewrite !fmap_cons, IH. simpl. rewrite Hd. reflexivity.
Qed.

Lemma entries_versions (kvs : list KeyValue) :
  Forall (fun kv => is_Some (key_version (Key kv))
                    /\ is_Some (fst (read_back (Value kv)))) kvs ->
  exists l, Forall2 entry_of kvs l
            /\ Some <$> (version_of <$> l) = (key_version ∘ Key) <$> kvs.
Proof.
  induction 1 as [|kv kvs [[v Hv] [d Hd]] _ (l & Hl & Hvs)].
  - exists []. split; [constructor | reflexivity].
  - destruct (key_version_details _ _ Hv) as (details & Hdetails & Hversion).
    exists ({| SchemaDetails := details; SchemaData := d |} :: l). split.
    + constructor; [|exact Hl]. split; [exact Hdetails|]. simpl.
      destruct (read_back (Value kv)) as [o err] eqn:Hr. simpl in Hd. subst o.
      destruct (read_back_Some _ _ _ Hr) as [-> _]. reflexivity.
    + rewrite !fmap_cons, Hvs. simpl. rewrite Hv.
      unfold version_of, GetVersion, GetSchemaDetails. simpl. congruence.
Qed.

(** C2, with the versions written the way semver reads them (a leading
    v).  A prefix whose records have the versions v1.2.0, v1.10.0, v1.3.0
    and v0.9.0, in whatever order etcd returns them, is listed as v0.9.0,
    v1.2.0, v1.3.0, v1.10.0, and its latest version is v1.10.0. *)
Theorem GetSchemasByPrefix_semver_order (prefix : string) (w : World) :
  next_fault w = None ->
  (key_version ∘ Key) <$> range (store w) (String.prefix prefix)
    ≡ₚ Some <$> ["v1.2.0"; "v1.10.0"; "v1.3.0"; "v0.9.0"] ->
  Forall (fun kv => is_Some (fst (read_back (Value kv))))
         (range (store w) (String.prefix prefix)) ->
  exists schemas,
    fst (run (GetSchemasByPrefix prefix) w) = Returns (schemas, None)
    /\ version_of <$> schemas = ["v0.9.0"; "v1.2.0"; "v1.3.0"; "v1.10.0"]
    /\ fst (run (GetLatestVersionByPrefix prefix) w) = Returns ("v1.10.0", None).
Proof.
  intros Hn Hversions Hvalues.
  destruct (entries_versions (range (store w) (String.prefix prefix)))
    as (l & Hl & Hvs).
  { apply Forall_forall. intros kv Hkv. split.
    - assert (Hin : (key_version ∘ Key) kv
                    ∈ Some <$> ["v1.2.0"; "v1.10.0"; "v1.3.0"; "v0.9.0"]).
      { rewrite <- Hversions. apply list_elem_of_fmap. eauto. }
      apply list_elem_of_fmap in Hin as (v & Hv & _). simpl in Hv.
      rewrite Hv. eauto.
    - revert kv Hkv. apply Forall_forall. exact Hvalues. }
  rewrite <- Hvs in Hversions. apply (fmap_Some_Permutation "") in Hversions.
  assert (Hsorted : version_of <$> sort_Slice l version_less
                    = ["v0.9.0"; "v1.2.0"; "v1.3.0"; "v1.10.0"]).
  { rewrite <- (sort_four_versions _ Hversions).
    apply (sort_Slice_fmap version_of semver_less). }
  exists (sort_Slice l version_less).
  assert (Hrun := GetSchemasByPrefix_entries prefix w l Hn Hl).
  split; [rewrite Hrun; reflexivity|]. split; [exact Hsorted|].
  unfold GetLatestVersionByPrefix. rewrite run_bind, Hrun.
  destruct (sort_Slice l version_less) as [|c0 [|c1 [|c2 [|c3 [|c4 more]]]]];
    try discriminate.
  injection Hsorted as _ _ _ Hlast. simpl. unfold version_of in Hlast.
  rewrite Hlast. reflexivity.
Qed.

(** C10. A record that is read back, by Get or in a listing, is the
    decoded stored envelope with its Schema field replaced by the
    transcoded text: CreationTime is the one that json.Unmarshal finds in
    the stored value. *)
Theorem CreationTime_as_persisted :
  (forall (key : string) (w : World) (d : ConfigSchemaData),
      fst (run (GetConfigSchema key) w) = Returns (Some d, None) ->
      exists value,
        store w !! key = Some value
        /\ d = set_Schema (fst (json_Unmarshal value)) (Schema d)
        /\ CreationTime d = CreationTime (fst (json_Unmarshal value)))
  /\ (forall (prefix : string) (w : World) (schemas : list ConfigSchema)
             (c : ConfigSchema),
        fst (run (GetSchemasByPrefix prefix) w) = Returns (schemas, None) ->
        c ∈ schemas ->
        exists key value,
          store w !! key = Some value
          /\ String.prefix prefix key = true
          /\ getSchemaDetailsFromKey key = Return (SchemaDetails c)
          /\ SchemaData c
             = set_Schema (fst (json_Unmarshal value)) (Schema (SchemaData c))
          /\ CreationTime (SchemaData c)
             = CreationTime (fst (json_Unmarshal value))).
Proof.
  split.
  - intros key w d Hget.
    destruct (GetConfigSchema_Returns _ _ _ Hget) as (value & Hk & Hr).
    destruct (read_back_Some _ _ _ Hr) as (_ & _ & _ & Hd).
    exists value. split; [exact Hk|]. split; [exact Hd|].
    rewrite Hd at 1. reflexivity.
  - intros prefix w schemas c Hlist Hc.
    destruct (GetSchemasByPrefix_Returns _ _ _ Hlist) as (_ & l & Hl & ->).
    rewrite sort_Slice_Permutation in Hc.
    apply list_elem_of_lookup in Hc as [i Hi].
    destruct (Forall2_lookup_r _ _ _ _ _ Hl Hi) as (kv & Hkv & Hd & Hr).
    apply list_elem_of_lookup_2, elem_of_range in Hkv as [Hk Hp].
    destruct (read_back_Some _ _ _ Hr) as (_ & _ & _ & Hsd).
    exists (Key kv), (Value kv).
    split; [exact Hk|]. split; [exact Hp|]. split; [exact Hd|].
    split; [exact Hsd|]. rewrite Hsd at 1. reflexivity.
Qed.

(** C3, as the code has it.  Key parsing checks nothing and has no error
    to return: a key with at least four segments, also one with more or
    with empty ones, gives its first four segments.  A listing that
    returns without error has one entry for each key etcd returned, with
    the details parsed from that key: no entry is dropped. *)
Theorem getSchemaDetailsFromKey_unchecked :
  (forall (key t0 t1 t2 t3 : string) (more : list string),
      strings_Split key "/" = t0 :: t1 :: t2 :: t3 :: more ->
      getSchemaDetailsFromKey key
      = Return {| Organization := t0; Namespace := t1;
                  SchemaName := t2; Version := t3 |})
  /\ (forall (prefix : string) (w : World) (schemas : list ConfigSchema),
        fst (run (GetSchemasByPrefix prefix) w) = Returns (schemas, None) ->
        length schemas = length (range (store w) (String.prefix prefix))
        /\ Return <$> (SchemaDetails <$> schemas)
           ≡ₚ (getSchemaDetailsFromKey ∘ Key)
                <$> range (store w) (String.prefix prefix)).
Proof.
  split; [exact getSchemaDetailsFromKey_four|].
  intros prefix w schemas Hlist.
  destruct (GetSchemasByPrefix_Returns _ _ _ Hlist) as (_ & l & Hl & ->).
  split.
  - rewrite sort_Slice_Permutation. symmetry. exact (Forall2_length _ _ _ Hl).
  - rewrite (entries_details _ _ Hl), sort_Slice_Permutation. reflexivity.
Qed.

End listing.

(** ** Saves on one key *)

Section saves.

Context `{Codec}.

(** C5, as the code has it.  Save is two calls on etcd, a Get and then a
    Put, with a clock reading in between.  Calls on one key that run one
    after another against an etcd that answers, on a key without a
    record, give one success, the first, and the already-exists error for
    all the others; the record is the first call's. *)
Theorem SaveConfigSchema_one_after_another
    (key s json value : string) (others : list string) (w : World) :
  store w !! key = None ->
  transport w = [] ->
  yaml_YAMLToJSON s = (json, None) ->
  json_Marshal {| Schema := json;
                  CreationTime := Some (timestamppb_New (clock w)) |}
    = (value, None) ->
  (exists k, fst (step (SaveConfigSchema key s) w) = Do time_Now k)
  /\ store (snd (step (SaveConfigSchema key s) w)) = store w
  /\ fst (run_each (SaveConfigSchema key <$> s :: others) w)
     = Returns None :: ((fun _ => Returns (already_exists key)) <$> others)
  /\ store (snd (run_each (SaveConfigSchema key <$> s :: others) w)) !! key
     = Some value.
Proof.
  intros Hk Ht Hy Hm.
  destruct (transport_empty w Ht) as [Hn Hc].
  split; [|split].
  - unfold SaveConfigSchema. simpl. rewrite Hn, Hc.
    rewrite (etcd_Get_absent _ _ Hk). simpl. rewrite Hy. simpl. eauto.
  - unfold SaveConfigSchema. simpl. rewrite Hn. reflexivity.
  - assert (Hfirst : run (SaveConfigSchema key s) w
                     = (Returns None, with_store w (<[key := value]> (store w)))).
    { unfold SaveConfigSchema. rewrite run_call, (exec_Get_reached _ _ Hn).
      rewrite (etcd_Get_absent _ _ Hk), Hc. simpl.
      rewrite Hy. simpl. rewrite Hm. simpl. rewrite Hn, Hc. reflexivity. }
    rewrite fmap_cons, run_each_cons, Hfirst. simpl fst. simpl snd.
    set (w1 := with_store w (<[key := value]> (store w))).
    assert (Hk1 : store w1 !! key = Some value) by apply lookup_insert_eq.
    assert (Ht1 : transport w1 = []) by exact Ht.
    destruct (transport_empty w1 Ht1) as [Hn1 Hc1].
    assert (Hrest : run_each (SaveConfigSchema key <$> others) w1
                    = ((fun _ => Returns (already_exists key)) <$> others, w1)).
    { induction others as [|s' others IH]; [reflexivity|].
      rewrite !fmap_cons, run_each_cons.
      destruct (SaveConfigSchema_present key s' value w1 Hk1) as (_ & _ & Hconflict).
      rewrite (Hconflict Hn1), Hc1. simpl fst. simpl snd. rewrite IH. reflexivity. }
    rewrite Hrest. simpl. auto.
Qed.

End saves.

(** ** The constructor *)

(** C9, as the code has it.  The constructor takes no configuration: the
    endpoint is the value of ETCD_ADDRESS in the process environment and
    the dial timeout is five seconds, so two environments that agree on
    ETCD_ADDRESS give the same client. *)
Theorem NewClient_reads_environment (environ1 environ2 : gmap string string) :
  os_Getenv environ1 "ETCD_ADDRESS" = os_Getenv environ2 "ETCD_ADDRESS" ->
  NewClient environ1 = NewClient environ2
  /\ Endpoints (config (client (fst (NewClient environ1))))
     = [os_Getenv environ1 "ETCD_ADDRESS"]
  /\ DialTimeout (config (client (fst (NewClient environ1)))) = 5000000000.
Proof.
  intros Henv. unfold NewClient, endpoint. rewrite Henv. simpl. auto.
Qed.

(** ** The statements on concrete stores *)

(** C2 as the spec words it.  With the versions 1.2.0, 1.10.0, 1.3.0 and
    0.9.0, none of which semver accepts, no two entries are ordered: the
    listing comes back in the key order of etcd, and the latest version is
    1.3.0. *)
Lemma GetSchemasByPrefix_versions_without_v :
  versions_listed (fst (run (GetSchemasByPrefix "org/ns/name/") unprefixed))
  = Some ["0.9.0"; "1.10.0"; "1.2.0"; "1.3.0"]
  /\ versions_listed (fst (run (GetSchemasByPrefix "org/ns/name/") unprefixed))
     <> Some ["0.9.0"; "1.2.0"; "1.3.0"; "1.10.0"]
  /\ fst (run (GetLatestVersionByPrefix "org/ns/name/") unprefixed)
     = Returns ("1.3.0", None)
  /\ fst (run (GetLatestVersionByPrefix "org/ns/name/") unprefixed)
     <> Returns ("1.10.0", None).
Proof.
  assert (Hlist : versions_listed
                    (fst (run (GetSchemasByPrefix "org/ns/name/") unprefixed))
                  = Some ["0.9.0"; "1.10.0"; "1.2.0"; "1.3.0"])
    by (vm_compute; reflexivity).
  assert (Hlatest : fst (run (GetLatestVersionByPrefix "org/ns/name/") unprefixed)
                    = Returns ("1.3.0", None))
    by (vm_compute; reflexivity).
  rewrite Hlist, Hlatest. repeat split; discriminate.
Qed.

Lemma GetSchemasByPrefix_semver_order_witness :
  next_fault prefixed = None
  /\ exists schemas,
       fst (run (GetSchemasByPrefix "org/ns/name/") prefixed)
       = Returns (schemas, None)
       /\ version_of <$> schemas = ["v0.9.0"; "v1.2.0"; "v1.3.0"; "v1.10.0"]
       /\ fst (run (GetLatestVersionByPrefix "org/ns/name/") prefixed)
          = Returns ("v1.10.0", None).
Proof.
  split; [reflexivity|].
  apply (GetSchemasByPrefix_semver_order "org/ns/name/" prefixed).
  - reflexivity.
  - apply (bool_decide_unpack _). vm_compute. exact I.
  - apply (bool_decide_unpack _). vm_compute. exact I.
Defined.

(** C3 as the spec words it.  A key of five segments and a key with an
    empty segment are parsed without any error, and both are listed; a key
    of two segments makes the parser panic. *)
Lemma getSchemaDetailsFromKey_malformed_keys :
  getSchemaDetailsFromKey "org/ns/name/v1.0.0/extra"
  = Return {| Organization := "org"; Namespace := "ns";
              SchemaName := "name"; Version := "v1.0.0" |}
  /\ getSchemaDetailsFromKey "org//name/v2.0.0"
     = Return {| Organization := "org"; Namespace := "";
                 SchemaName := "name"; Version := "v2.0.0" |}
  /\ getSchemaDetailsFromKey "org/ns"
     = Panic "runtime error: index out of range [2] with length 2"
  /\ details_listed (fst (run (GetSchemasByPrefix "org/") foreign_keys))
     = Some [{| Organization := "org"; Namespace := "ns";
                SchemaName := "name"; Version := "v1.0.0" |};
             {| Organization := "org"; Namespace := "";
                SchemaName := "name"; Version := "v2.0.0" |}].
Proof. repeat split; vm_compute; reflexivity. Qed.

Lemma getSchemaDetailsFromKey_unchecked_witness :
  strings_Split "org/ns/name/v1.0.0/extra" "/"
  = ["org"; "ns"; "name"; "v1.0.0"; "extra"]
  /\ getSchemaDetailsFromKey "org/ns/name/v1.0.0/extra"
     = Return {| Organization := "org"; Namespace := "ns";
                 SchemaName := "name"; Version := "v1.0.0" |}
  /\ exists schemas,
       fst (run (GetSchemasByPrefix "org/") foreign_keys) = Returns (schemas, None)
       /\ length schemas = length (range (store foreign_keys) (String.prefix "org/"))
       /\ length schemas = 2%nat.
Proof.
  split; [reflexivity|]. split.
  - apply (proj1 getSchemaDetailsFromKey_unchecked
             "org/ns/name/v1.0.0/extra" "org" "ns" "name" "v1.0.0" ["extra"]).
    reflexivity.
  - destruct (fst (run (GetSchemasByPrefix "org/") foreign_keys))
      as [[schemas [e|]] | msg] eqn:Hlist; try (vm_compute in Hlist; discriminate).
    exists schemas. split; [reflexivity|].
    destruct (proj2 getSchemaDetailsFromKey_unchecked "org/" foreign_keys schemas Hlist)
      as [Hlen _].
    split; [exact Hlen|]. rewrite Hlen. vm_compute. reflexivity.
Defined.

(** C5 as the spec words it.  Two goroutines save different schemas under
    one key; both read before either writes.  Both calls return nil, and
    the record is the one of the goroutine that wrote last. *)
Lemma SaveConfigSchema_lost_update :
  fst (interleave [0; 1; 0; 1; 0; 1]%nat two_savers Plain.empty_world)
  = [Return None; Return None]
  /\ store (snd (interleave [0; 1; 0; 1; 0; 1]%nat two_savers Plain.empty_world))
       !! "org/ns/name/v1.0.0"
     = Some "1700000000.42|a: 2".
Proof. split; vm_compute; reflexivity. Qed.

Lemma SaveConfigSchema_one_after_another_witness :
  store Plain.empty_world !! "org/ns/name/v1.0.0" = None
  /\ fst (run_each (SaveConfigSchema "org/ns/name/v1.0.0" <$> ["a: 1"; "a: 2"; "a: 3"])
            Plain.empty_world)
     = [Returns None; Returns (already_exists "org/ns/name/v1.0.0");
        Returns (already_exists "org/ns/name/v1.0.0")]
  /\ store (snd (run_each
                   (SaveConfigSchema "org/ns/name/v1.0.0" <$> ["a: 1"; "a: 2"; "a: 3"])
                   Plain.empty_world)) !! "org/ns/name/v1.0.0"
     = Some "1700000000.42|a: 1".
Proof.
  split; [reflexivity|].
  destruct (SaveConfigSchema_one_after_another
              "org/ns/name/v1.0.0" "a: 1" "a: 1" "1700000000.42|a: 1"
              ["a: 2"; "a: 3"] Plain.empty_world)
    as (_ & _ & Houtcomes & Hrecord);
    try reflexivity.
  split; [exact Houtcomes | exact Hrecord].
Defined.

(** C9 as the spec words it.  Two processes that differ only in their
    environment get clients for different endpoints. *)
Lemma NewClient_depends_on_environment :
  NewClient {["ETCD_ADDRESS" := "10.0.0.1:2379"]}
  <> NewClient {["ETCD_ADDRESS" := "10.0.0.2:2379"]}.
Proof. vm_compute. discriminate. Qed.

Lemma NewClient_reads_environment_witness :
  os_Getenv {["ETCD_ADDRESS" := "etcd:2379"; "HOME" := "/root"]} "ETCD_ADDRESS"
  = os_Getenv {["ETCD_ADDRESS" := "etcd:2379"]} "ETCD_ADDRESS"
  /\ NewClient {["ETCD_ADDRESS" := "etcd:2379"; "HOME" := "/root"]}
     = NewClient {["ETCD_ADDRESS" := "etcd:2379"]}.
Proof.
  split; [vm_compute; reflexivity|].
  apply (NewClient_reads_environment
           {["ETCD_ADDRESS" := "etcd:2379"; "HOME" := "/root"]}
           {["ETCD_ADDRESS" := "etcd:2379"]}).
  vm_compute. reflexivity.
Defined.

Lemma CreationTime_as_persisted_witness :
  fst (run (GetConfigSchema "org/ns/name/v1.0.0") saved_once)
  = Returns (Some first_envelope, None)
  /\ fst (run (GetSchemasByPrefix "org/") saved_once)
     = Returns ([first_entry], None)
  /\ (exists value,
        store saved_once !! "org/ns/name/v1.0.0" = Some value
        /\ CreationTime first_envelope
           = CreationTime (fst (json_Unmarshal value)))
  /\ (exists key value,
        store saved_once !! key = Some value
        /\ getSchemaDetailsFromKey key = Return (SchemaDetails first_entry)
        /\ CreationTime (SchemaData first_entry)
           = CreationTime (fst (json_Unmarshal value))).
Proof.
  assert (Hget : fst (run (GetConfigSchema "org/ns/name/v1.0.0") saved_once)
                 = Returns (Some first_envelope, None))
    by (vm_compute; reflexivity).
  assert (Hlist : fst (run (GetSchemasByPrefix "org/") saved_once)
                  = Returns ([first_entry], None))
    by (vm_compute; reflexivity).
  split; [exact Hget|]. split; [exact Hlist|]. split.
  - destruct (proj1 CreationTime_as_persisted _ _ _ Hget) as (value & Hk & _ & Ht).
    exists value. split; [exact Hk | exact Ht].
  - destruct (proj2 CreationTime_as_persisted "org/" saved_once [first_entry]
                first_entry Hlist (list_elem_of_here _ _))
      as (key & value & Hk & _ & Hd & _ & Ht).
    exists key, value. split; [exact Hk|]. split; [exact Hd | exact Ht].
Defined.

(** * Further properties *)

(** ** More on single keys *)

Section more_single_key.

Context `{Codec}.

(** X1. A client call that does not get through: every operation returns the
  client's error after that one call, and the store is as before. *)
Theorem client_error_is_returned
  (key schema prefix : string) (w : World) (e : error_value) :
next_fault w = Some e ->
run (SaveConfigSchema key schema) w = (Returns (Some e), called w)
/\ run (GetConfigSchema key) w = (Returns (None, Some e), called w)
/\ run (DeleteConfigSchema key) w = (Returns (Some e), called w)
/\ run (GetSchemasByPrefix prefix) w = (Returns ([], Some e), called w)
/\ run (GetLatestVersionByPrefix prefix) w = (Returns ("", Some e), called w)
/\ store (called w) = store w.
Proof.
intros Hn.
assert (Hlist : run (GetSchemasByPrefix prefix) w
                = (Returns ([], Some e), called w)).
{ unfold GetSchemasByPrefix. rewrite run_call. simpl exec. rewrite Hn.
  reflexivity. }
repeat split.
- unfold SaveConfigSchema. rewrite run_call, (exec_Get_failed _ _ _ Hn).
  reflexivity.
- unfold GetConfigSchema. rewrite run_call, (exec_Get_failed _ _ _ Hn).
  reflexivity.
- unfold DeleteConfigSchema. rewrite run_call. simpl exec. rewrite Hn.
  reflexivity.
- exact Hlist.
- unfold GetLatestVersionByPrefix. rewrite run_bind, Hlist. reflexivity.
Qed.

(** X2. Save on a key without a record, with a schema that the transcoder and
  the serializer accept and an etcd that answers both calls: nil, and
  the store has gained the envelope under the key. *)
Theorem SaveConfigSchema_creates (key schema json value : string) (w : World) :
store w !! key = None ->
next_fault w = None ->
next_fault (called w) = None ->
yaml_YAMLToJSON schema = (json, None) ->
json_Marshal {| Schema := json;
                CreationTime := Some (timestamppb_New (clock w)) |}
  = (value, None) ->
run (SaveConfigSchema key schema) w
= (Returns None,
   with_store (called (called w)) (<[key := value]> (store w))).
Proof.
intros Hk Hn Hn' Hy Hm. unfold SaveConfigSchema.
rewrite run_call, (exec_Get_reached _ _ Hn), (etcd_Get_absent _ _ Hk). simpl.
rewrite Hy. simpl. rewrite Hm. simpl. rewrite Hn'. reflexivity.
Qed.

(** X3. Save never panics, and a Save that returns an error has written
  nothing. *)
Theorem SaveConfigSchema_error_writes_nothing (key schema : string) (w : World) :
(exists err, fst (run (SaveConfigSchema key schema) w) = Returns err)
/\ (forall e, fst (run (SaveConfigSchema key schema) w) = Returns (Some e) ->
      store (snd (run (SaveConfigSchema key schema) w)) = store w).
Proof.
unfold SaveConfigSchema. rewrite run_call. simpl exec.
destruct (next_fault w) as [e0|]; simpl; [eauto|].
unfold etcd_Get. destruct (store w !! key) as [v|]; simpl; [eauto|].
destruct (yaml_YAMLToJSON schema) as [json [e1|]]; simpl; [eauto|].
destruct (json_Marshal _) as [value [e2|]]; simpl; [eauto|].
destruct (next_fault (called w)) as [e3|]; simpl; [eauto|].
split; [eauto|]. intros e He. discriminate.
Qed.

(** X4. A schema that the transcoder rejects: Save returns the transcoder's
  error, and a value that the serializer rejects gives the serializer's;
  neither writes. *)
Theorem SaveConfigSchema_rejected (key schema : string) (w : World) :
store w !! key = None ->
next_fault w = None ->
(forall json e, yaml_YAMLToJSON schema = (json, Some e) ->
   run (SaveConfigSchema key schema) w = (Returns (Some e), called w))
/\ (forall json value e,
      yaml_YAMLToJSON schema = (json, None) ->
      json_Marshal {| Schema := json;
                      CreationTime := Some (timestamppb_New (clock w)) |}
        = (value, Some e) ->
      run (SaveConfigSchema key schema) w = (Returns (Some e), called w)).
Proof.
intros Hk Hn. split.
- intros json e Hy. unfold SaveConfigSchema.
  rewrite run_call, (exec_Get_reached _ _ Hn), (etcd_Get_absent _ _ Hk). simpl.
  rewrite Hy. reflexivity.
- intros json value e Hy Hm. unfold SaveConfigSchema.
  rewrite run_call, (exec_Get_reached _ _ Hn), (etcd_Get_absent _ _ Hk). simpl.
  rewrite Hy. simpl. rewrite Hm. reflexivity.
Qed.

(** X5. Save and Delete on one key leave every other key as it is, whatever
  their outcome. *)
Theorem other_keys_untouched (key key' schema : string) (w : World) :
key' <> key ->
store (snd (run (SaveConfigSchema key schema) w)) !! key' = store w !! key'
/\ store (snd (run (DeleteConfigSchema key) w)) !! key' = store w !! key'.
Proof.
intros Hne. split.
- unfold SaveConfigSchema. rewrite run_call. simpl exec.
  destruct (next_fault w) as [e0|]; simpl; [reflexivity|].
  unfold etcd_Get. destruct (store w !! key) as [v|]; simpl; [reflexivity|].
  destruct (yaml_YAMLToJSON schema) as [json [e1|]]; simpl; [reflexivity|].
  destruct (json_Marshal _) as [value [e2|]]; simpl; [reflexivity|].
  destruct (next_fault (called w)) as [e3|]; simpl; [reflexivity|].
  apply lookup_insert_ne. congruence.
- unfold DeleteConfigSchema. rewrite run_call. simpl exec.
  destruct (next_fault w) as [e0|]; simpl; [reflexivity|].
  unfold etcd_Delete. destruct (store w !! key) as [v|]; simpl; [|reflexivity].
  apply lookup_delete_ne. congruence.
Qed.

(** X6. When etcd answers, Get reports absence exactly for the keys that hold
  no record: a record that does not decode is an error, not an
  absence. *)
Theorem GetConfigSchema_absent_iff (key : string) (w : World) :
next_fault w = None ->
fst (run (GetConfigSchema key) w) = Returns (None, None)
<-> store w !! key = None.
Proof.
intros Hn. split.
- destruct (store w !! key) as [v|] eqn:Hk; [|reflexivity].
  rewrite (GetConfigSchema_present _ _ _ Hk Hn). simpl.
  destruct (read_back v) as [[d|] err] eqn:Hr; [discriminate|].
  destruct (read_back_None _ _ Hr) as [e ->]. discriminate.
- intros Hk. apply GetConfigSchema_no_record; assumption.
Qed.

(** X7. A stored value that does not decode, or whose schema does not
  transcode: Get returns that error and no envelope. *)
Theorem GetConfigSchema_corrupt (key value : string) (w : World) :
store w !! key = Some value ->
next_fault w = None ->
(forall e, snd (json_Unmarshal value) = Some e ->
   fst (run (GetConfigSchema key) w) = Returns (None, Some e))
/\ (forall e, snd (json_Unmarshal value) = None ->
      snd (yaml_JSONToYAML (Schema (fst (json_Unmarshal value)))) = Some e ->
      fst (run (GetConfigSchema key) w) = Returns (None, Some e)).
Proof.
intros Hk Hn. rewrite (GetConfigSchema_present _ _ _ Hk Hn). simpl.
unfold read_back, GetSchema.
destruct (json_Unmarshal value) as [d [e0|]]; simpl.
- split; [intros e [= <-]; reflexivity | discriminate].
- split; [discriminate|]. intros e _.
  destruct (yaml_JSONToYAML (Schema d)) as [y [e1|]]; simpl; [|discriminate].
  intros [= <-]. reflexivity.
Qed.

(** X8. Save and then Delete: the store is again what it was before the
  Save. *)
Theorem SaveConfigSchema_then_Delete (key schema : string) (w0 w1 : World) :
run (SaveConfigSchema key schema) w0 = (Returns None, w1) ->
next_fault w1 = None ->
fst (run (DeleteConfigSchema key) w1) = Returns None
/\ store (snd (run (DeleteConfigSchema key) w1)) = store w0.
Proof.
intros Hsave Hn.
destruct (SaveConfigSchema_success _ _ _ _ Hsave) as (json & value & _ & _ & Hk & Hw).
unfold DeleteConfigSchema. rewrite run_call. simpl exec. rewrite Hn.
unfold etcd_Delete. rewrite Hw, lookup_insert_eq. simpl.
split; [reflexivity|]. apply delete_insert_id. exact Hk.
Qed.

(** X9. Delete and then Save: a key whose record was deleted takes a new
  record, with the clock reading of the new Save. *)
Theorem DeleteConfigSchema_then_Save
  (key schema json value : string) (w : World) :
is_Some (store w !! key) ->
transport w = [] ->
yaml_YAMLToJSON schema = (json, None) ->
json_Marshal {| Schema := json;
                CreationTime := Some (timestamppb_New (clock w)) |}
  = (value, None) ->
fst (run_each [DeleteConfigSchema key; SaveConfigSchema key schema] w)
= [Returns None; Returns None]
/\ store (snd (run_each [DeleteConfigSchema key; SaveConfigSchema key schema] w))
   = <[key := value]> (store w).
Proof.
intros [v Hk] Ht Hy Hm.
destruct (transport_empty w Ht) as [Hn Hc].
assert (Hdel : run (DeleteConfigSchema key) w
               = (Returns None, with_store w (delete key (store w)))).
{ unfold DeleteConfigSchema. rewrite run_call. simpl exec. rewrite Hn, Hc.
  unfold etcd_Delete. rewrite Hk. reflexivity. }
set (w1 := with_store w (delete key (store w))) in *.
assert (Ht1 : transport w1 = []) by exact Ht.
destruct (transport_empty w1 Ht1) as [Hn1 Hc1].
assert (Hsave : run (SaveConfigSchema key schema) w1
                = (Returns None, with_store w1 (<[key := value]> (store w1)))).
{ assert (Hk1 : store w1 !! key = None) by apply lookup_delete_eq.
  unfold SaveConfigSchema.
  rewrite run_call, (exec_Get_reached _ _ Hn1), (etcd_Get_absent _ _ Hk1), Hc1.
  simpl. rewrite Hy. simpl. rewrite Hm. simpl. rewrite Hn1, Hc1. reflexivity. }
rewrite !run_each_cons, Hdel. cbn [fst snd]. rewrite Hsave.
simpl. split; [reflexivity|]. apply insert_delete_eq.
Qed.

End more_single_key.

(** ** More on key parsing *)

Lemma append_cons (x : ascii) (a b : string) :
  String x a +:+ b = String x (a +:+ b).
Proof. reflexivity. Qed.

Lemma append_assoc (a b c : string) : (a +:+ b) +:+ c = a +:+ (b +:+ c).
Proof.
  induction a as [|x a IH]; [reflexivity|].
  rewrite !append_cons, IH. reflexivity.
Qed.

Lemma append_empty_r (a : string) : a +:+ "" = a.
Proof.
  induction a as [|x a IH]; [reflexivity|].
  rewrite append_cons, IH. reflexivity.
Qed.

Lemma split_at_length (sep : ascii) (s cur : string) :
  length (split_at sep s cur) = S (strings_Count s sep).
Proof.
  revert cur. induction s as [|c s IH]; intros cur; simpl; [reflexivity|].
  destruct (Ascii.eqb c sep); simpl; rewrite IH; reflexivity.
Qed.

Lemma split_at_no_separator (sep : ascii) (s cur : string) :
  strings_Count s sep = 0%nat -> split_at sep s cur = [cur +:+ s].
Proof.
  revert cur. induction s as [|c s IH]; intros cur; cbn [split_at strings_Count].
  - rewrite append_empty_r. reflexivity.
  - destruct (Ascii.eqb c sep); [discriminate|]. intros Hs.
    rewrite (IH _ Hs), append_assoc. reflexivity.
Qed.

Lemma split_at_segment (sep : ascii) (a b cur : string) :
  strings_Count a sep = 0%nat ->
  split_at sep (a +:+ String sep b) cur = (cur +:+ a) :: split_at sep b "".
Proof.
  revert cur. induction a as [|c a IH]; intros cur;
    rewrite ?append_cons; cbn [split_at strings_Count].
  - intros _. change ("" +:+ String sep b) with (String sep b).
    cbn [split_at]. rewrite Ascii.eqb_refl, append_empty_r. reflexivity.
  - destruct (Ascii.eqb c sep); [discriminate|]. intros Ha.
    rewrite (IH _ Ha), append_assoc. reflexivity.
Qed.

Lemma split_at_join (sep : ascii) (s cur : string) :
  String.concat (String sep "") (split_at sep s cur) = cur +:+ s.
Proof.
  revert cur. induction s as [|c s IH]; intros cur.
  - cbn [split_at String.concat]. rewrite append_empty_r. reflexivity.
  - cbn [split_at]. destruct (Ascii.eqb c sep) eqn:Hc.
    + apply Ascii.eqb_eq in Hc. subst c.
      change (String.concat (String sep "") (cur :: split_at sep s ""))
        with (match split_at sep s "" with
              | [] => cur
              | _ :: _ => cur +:+ String sep "" +:+
                          String.concat (String sep "") (split_at sep s "")
              end).
      rewrite IH.
      destruct (split_at sep s "") eqn:Hsplit.
      * pose proof (split_at_length sep s "") as Hlen.
        rewrite Hsplit in Hlen. discriminate.
      * reflexivity.
    + rewrite IH, append_assoc. reflexivity.
Qed.

Lemma getSchemaDetailsFromKey_enough (key : string) :
  (3 <= strings_Count key "/")%nat ->
  exists d, getSchemaDetailsFromKey key = Return d.
Proof.
  pose proof (split_at_length "/" key "") as Hlen.
  unfold getSchemaDetailsFromKey, strings_Split.
  destruct (split_at "/" key "") as [|t0 [|t1 [|t2 [|t3 more]]]];
    simpl in Hlen; try lia.
  simpl. eauto.
Qed.

Lemma getSchemaDetailsFromKey_short (key : string) :
  (strings_Count key "/" < 3)%nat ->
  getSchemaDetailsFromKey key
  = Panic (out_of_range (S (strings_Count key "/")) (S (strings_Count key "/"))).
Proof.
  pose proof (split_at_length "/" key "") as Hlen.
  unfold getSchemaDetailsFromKey, strings_Split.
  destruct (split_at "/" key "") as [|t0 [|t1 [|t2 [|t3 more]]]];
    simpl in Hlen; [discriminate|..]; injection Hlen as Hlen;
    rewrite <- Hlen; simpl; intros Hc; try reflexivity; lia.
Qed.

(** X11. The parser returns exactly for the keys with at least three
    separators; on every other key it panics. *)
Theorem getSchemaDetailsFromKey_Return_iff (key : string) :
  ((exists d, getSchemaDetailsFromKey key = Return d)
   <-> (3 <= strings_Count key "/")%nat)
  /\ ((strings_Count key "/" < 3)%nat ->
      getSchemaDetailsFromKey key
      = Panic (out_of_range (S (strings_Count key "/"))
                            (S (strings_Count key "/")))).
Proof.
  pose proof (split_at_length "/" key "") as Hlen.
  unfold getSchemaDetailsFromKey, strings_Split.
  destruct (split_at "/" key "") as [|t0 [|t1 [|t2 [|t3 more]]]];
    simpl in Hlen; [discriminate|..]; injection Hlen as Hlen;
    rewrite <- Hlen; simpl.
  - split; [split; [intros [d Hd]; discriminate | lia] | reflexivity].
  - split; [split; [intros [d Hd]; discriminate | lia] | reflexivity].
  - split; [split; [intros [d Hd]; discriminate | lia] | reflexivity].
  - split; [split; [lia | eauto] | lia].
Qed.

Lemma separator_append (x : string) : "/" +:+ x = String "/" x.
Proof. reflexivity. Qed.

(** X12. Parsing the key of an identifier whose fields hold no separator gives
    the identifier back. *)
Theorem getSchemaDetailsFromKey_format_key (d : ConfigSchemaDetails) :
  strings_Count (Organization d) "/" = 0%nat ->
  strings_Count (Namespace d) "/" = 0%nat ->
  strings_Count (SchemaName d) "/" = 0%nat ->
  strings_Count (Version d) "/" = 0%nat ->
  getSchemaDetailsFromKey (format_key d) = Return d.
Proof.
  intros Ho Hn Hs Hv. unfold getSchemaDetailsFromKey, strings_Split, format_key.
  rewrite !separator_append.
  rewrite (split_at_segment _ _ _ _ Ho), (split_at_segment _ _ _ _ Hn),
    (split_at_segment _ _ _ _ Hs), (split_at_no_separator _ _ _ Hv).
  destruct d; reflexivity.
Qed.

(** X13. A key with exactly three separators is the key of the identifier that
    the parser reads from it. *)
Theorem format_key_getSchemaDetailsFromKey (key : string) (d : ConfigSchemaDetails) :
  strings_Count key "/" = 3%nat ->
  getSchemaDetailsFromKey key = Return d ->
  format_key d = key.
Proof.
  intros Hc Hd.
  destruct (getSchemaDetailsFromKey_Return _ _ Hd) as [more Hsplit].
  pose proof (split_at_length "/" key "") as Hlen.
  pose proof (split_at_join "/" key "") as Hjoin.
  unfold strings_Split in Hsplit. rewrite Hsplit in Hlen, Hjoin.
  rewrite Hc in Hlen. destruct more; [|discriminate].
  exact Hjoin.
Qed.

(** ** More on sort.Slice *)

(** A slice in which no element is less than another comes back as it
    is. *)
Lemma sort_Slice_unordered {A : Type} (less : A -> A -> bool) (data : list A) :
  (forall x y, x ∈ data -> y ∈ data -> less x y = false) ->
  sort_Slice data less = data.
Proof.
  intros Hless. unfold sort_Slice.
  assert (Hgen : forall todo left,
             (forall x y, x ∈ todo -> y ∈ left ++ todo -> less x y = false) ->
             fold_left (fun left x => sink less x left) todo left
             = reverse todo ++ left).
  { induction todo as [|x todo IH]; intros left Hl; [reflexivity|].
    simpl fold_left.
    assert (Hsink : sink less x left = x :: left).
    { destruct left as [|y left]; [reflexivity|]. simpl.
      rewrite Hl; [reflexivity | left | left]. }
    rewrite Hsink, IH, reverse_cons, <- app_assoc; [reflexivity|].
    intros x' y Hx' Hy. apply Hl; [right; exact Hx'|].
    apply elem_of_app. apply elem_of_cons in Hy as [-> | Hy].
    - right. left.
    - apply elem_of_app in Hy as [Hy | Hy]; [left | right; right]; exact Hy. }
  rewrite Hgen, app_nil_r, reverse_involutive; [reflexivity|].
  intros x y Hx Hy. apply Hless; assumption.
Qed.

Section more_listing.

Context `{Codec}.

(** X14. Get, the listing and the latest version read: the store after them is
  the store before them, whatever they return. *)
Theorem reads_leave_the_store (key prefix : string) (w : World) :
store (snd (run (GetConfigSchema key) w)) = store w
/\ store (snd (run (GetSchemasByPrefix prefix) w)) = store w
/\ store (snd (run (GetLatestVersionByPrefix prefix) w)) = store w.
Proof.
assert (Hlist : store (snd (run (GetSchemasByPrefix prefix) w)) = store w).
{ unfold GetSchemasByPrefix. rewrite run_call. simpl exec.
  destruct (next_fault w) as [e|]; [reflexivity|]. simpl.
  destruct (Z.of_nat _ =? 0); [reflexivity|]. rewrite run_bind.
  destruct (fill_outcomes (range (store w) (String.prefix prefix)) [])
    as [(l & _ & Hf) | [[e Hf] | [msg Hf]]]; rewrite Hf; reflexivity. }
split; [|split].
- unfold GetConfigSchema. rewrite run_call. simpl exec.
  destruct (next_fault w) as [e|]; [reflexivity|]. simpl.
  unfold etcd_Get. destruct (store w !! key); reflexivity.
- exact Hlist.
- unfold GetLatestVersionByPrefix. rewrite run_bind.
  destruct (run (GetSchemasByPrefix prefix) w) as [[[schemas [e|]] | msg] w'];
    simpl in *; try exact Hlist.
  destruct (Nat.eqb (length schemas) 0); [exact Hlist|].
  unfold index. destruct (schemas !! _); exact Hlist.
Qed.

(** X15. A prefix that no stored key starts with: the listing is (nil, nil)
  and the latest version is the empty string. *)
Theorem GetSchemasByPrefix_nothing_under_prefix (prefix : string) (w : World) :
next_fault w = None ->
(forall key value,
    store w !! key = Some value -> String.prefix prefix key = false) ->
fst (run (GetSchemasByPrefix prefix) w) = Returns ([], None)
/\ fst (run (GetLatestVersionByPrefix prefix) w) = Returns ("", None).
Proof.
intros Hn Hnone.
assert (Hrange : range (store w) (String.prefix prefix) = []).
{ destruct (range (store w) (String.prefix prefix)) as [|kv kvs] eqn:Hr;
    [reflexivity|].
  assert (Hkv : kv ∈ range (store w) (String.prefix prefix))
    by (rewrite Hr; left).
  apply elem_of_range in Hkv as [Hk Hp].
  rewrite (Hnone _ _ Hk) in Hp. discriminate. }
assert (Hlist : run (GetSchemasByPrefix prefix) w = (Returns ([], None), called w)).
{ unfold GetSchemasByPrefix. rewrite run_call. simpl exec. rewrite Hn.
  unfold etcd_Get_WithPrefix. rewrite Hrange. reflexivity. }
split; [rewrite Hlist; reflexivity|].
unfold GetLatestVersionByPrefix. rewrite run_bind, Hlist. reflexivity.
Qed.

Lemma fill_corrupt (kvs : list KeyValue) (schemas : list ConfigSchema) :
Forall (fun kv => (3 <= strings_Count (Key kv) "/")%nat) kvs ->
Exists (fun kv => fst (read_back (Value kv)) = None) kvs ->
exists kv e,
  kv ∈ kvs /\ read_back (Value kv) = (None, Some e)
  /\ fill kvs schemas = Return ([], Some e).
Proof.
intros Hkeys. revert schemas.
induction Hkeys as [|kv kvs Hkey Hkeys IH]; intros schemas Hbad;
  [inversion Hbad|].
apply getSchemaDetailsFromKey_enough in Hkey as [d Hd].
simpl. rewrite Hd. simpl.
destruct (read_back (Value kv)) as [[sd|] err] eqn:Hr.
- apply Exists_cons in Hbad as [Hbad | Hbad];
    [rewrite Hr in Hbad; discriminate|].
  destruct (IH (schemas ++ [{| SchemaDetails := d; SchemaData := sd |}]) Hbad)
    as (kv' & e & Hin & Hr' & Hf).
  exists kv', e. split; [right; exact Hin|]. split; [exact Hr' | exact Hf].
- destruct (read_back_None _ _ Hr) as [e ->].
  exists kv, e. split; [left|]. split; [exact Hr | reflexivity].
Qed.

(** X16. One record that does not decode, among keys that all parse: the
  listing returns no entry at all, only the error of such a record,
  and so does the latest version. *)
Theorem GetSchemasByPrefix_corrupt_record (prefix : string) (w : World) :
next_fault w = None ->
Forall (fun kv => (3 <= strings_Count (Key kv) "/")%nat)
       (range (store w) (String.prefix prefix)) ->
Exists (fun kv => fst (read_back (Value kv)) = None)
       (range (store w) (String.prefix prefix)) ->
exists key value e,
  store w !! key = Some value
  /\ String.prefix prefix key = true
  /\ read_back value = (None, Some e)
  /\ fst (run (GetSchemasByPrefix prefix) w) = Returns ([], Some e)
  /\ fst (run (GetLatestVersionByPrefix prefix) w) = Returns ("", Some e).
Proof.
intros Hn Hkeys Hbad.
destruct (fill_corrupt _ [] Hkeys Hbad) as (kv & e & Hin & Hr & Hf).
assert (Hlist : run (GetSchemasByPrefix prefix) w
                = (Returns ([], Some e), called w)).
{ unfold GetSchemasByPrefix. rewrite run_call. simpl exec. rewrite Hn. simpl.
  destruct (range (store w) (String.prefix prefix)) as [|kv0 kvs];
    [inversion Hbad|].
  change (Z.of_nat (length (kv0 :: kvs)) =? 0) with false. cbv iota.
  rewrite run_bind, Hf. reflexivity. }
apply elem_of_range in Hin as [Hk Hp].
exists (Key kv), (Value kv), e.
split; [exact Hk|]. split; [exact Hp|]. split; [exact Hr|].
split; [rewrite Hlist; reflexivity|].
unfold GetLatestVersionByPrefix. rewrite run_bind, Hlist. reflexivity.
Qed.

Lemma fill_short_key (good : list KeyValue) (l : list ConfigSchema)
  (kv : KeyValue) (rest : list KeyValue) (schemas : list ConfigSchema)
  (msg : string) :
Forall2 entry_of good l ->
getSchemaDetailsFromKey (Key kv) = Panic msg ->
fill (good ++ kv :: rest) schemas = Panic msg.
Proof.
intros Hgood Hpanic. revert schemas.
induction Hgood as [|kv0 c good l [Hd Hr] _ IH]; intros schemas; simpl.
- rewrite Hpanic. reflexivity.
- rewrite Hd. simpl. rewrite Hr. apply IH.
Qed.

(** X17. A key with fewer than three separators under the prefix, after
  entries that are all well formed: the listing panics on it with an
  index out of range, and so does the latest version. *)
Theorem GetSchemasByPrefix_short_key
  (prefix : string) (w : World) (good : list KeyValue)
  (l : list ConfigSchema) (kv : KeyValue) (rest : list KeyValue) :
next_fault w = None ->
range (store w) (String.prefix prefix) = good ++ kv :: rest ->
Forall2 entry_of good l ->
(strings_Count (Key kv) "/" < 3)%nat ->
let n := S (strings_Count (Key kv) "/") in
fst (run (GetSchemasByPrefix prefix) w) = Panics (out_of_range n n)
/\ fst (run (GetLatestVersionByPrefix prefix) w) = Panics (out_of_range n n).
Proof.
intros Hn Hrange Hgood Hshort n.
pose proof (getSchemaDetailsFromKey_short (Key kv) Hshort) as Hpanic.
assert (Hlist : run (GetSchemasByPrefix prefix) w
                = (Panics (out_of_range n n), called w)).
{ unfold GetSchemasByPrefix. rewrite run_call. simpl exec. rewrite Hn. simpl.
  rewrite Hrange.
  assert (Hcount : (Z.of_nat (length (good ++ kv :: rest)) =? 0) = false).
  { apply Z.eqb_neq. rewrite length_app. simpl. lia. }
  rewrite Hcount, run_bind, (fill_short_key _ _ _ _ _ _ Hgood Hpanic).
  reflexivity. }
split; [rewrite Hlist; reflexivity|].
unfold GetLatestVersionByPrefix. rewrite run_bind, Hlist. reflexivity.
Qed.

(** X18. Versions that semver does not accept (all of them, under the prefix):
  no entry is less than another and the listing is returned in the key
  order of etcd.  For the at most twelve entries that sort.Slice sorts by
  insertion. *)
Theorem GetSchemasByPrefix_invalid_versions
  (prefix : string) (w : World) (l : list ConfigSchema) :
next_fault w = None ->
Forall2 entry_of (range (store w) (String.prefix prefix)) l ->
Forall (fun c => semver.parse (version_of c) = None) l ->
(length l <= 12)%nat ->
fst (run (GetSchemasByPrefix prefix) w) = Returns (l, None).
Proof.
intros Hn Hl Hinvalid _.
rewrite (GetSchemasByPrefix_entries prefix w l Hn Hl). simpl.
rewrite sort_Slice_unordered; [reflexivity|].
intros x y Hx Hy. rewrite Forall_forall in Hinvalid.
unfold version_less, semver.Compare.
change (GetVersion (GetSchemaDetails x)) with (version_of x).
change (GetVersion (GetSchemaDetails y)) with (version_of y).
rewrite (Hinvalid _ Hx), (Hinvalid _ Hy). reflexivity.
Qed.

(** X19. The latest version, when it is returned without error, is the version
  segment of a key that is stored under the prefix, or the empty string
  of a prefix with no key. *)
Theorem GetLatestVersionByPrefix_is_stored (prefix v : string) (w : World) :
fst (run (GetLatestVersionByPrefix prefix) w) = Returns (v, None) ->
(range (store w) (String.prefix prefix) = [] /\ v = "")
\/ (exists key value,
      store w !! key = Some value
      /\ String.prefix prefix key = true
      /\ key_version key = Some v).
Proof.
unfold GetLatestVersionByPrefix. rewrite run_bind.
destruct (run (GetSchemasByPrefix prefix) w) as [[[schemas [e|]] | msg] w']
  eqn:Hrun; simpl; try discriminate.
assert (Hlist : fst (run (GetSchemasByPrefix prefix) w) = Returns (schemas, None))
  by (rewrite Hrun; reflexivity).
destruct (GetSchemasByPrefix_Returns _ _ _ Hlist) as (_ & l & Hl & Hsorted).
destruct schemas as [|c schemas].
- intros [= <-]. left. split; [|reflexivity].
  pose proof (sort_Slice_Permutation l version_less) as Hperm.
  rewrite <- Hsorted in Hperm. apply Permutation_nil in Hperm.
  subst l. inversion Hl. reflexivity.
- unfold index. simpl length. simpl Nat.eqb. cbv iota.
  destruct ((c :: schemas) !! (S (length schemas) - 1)%nat) as [s|] eqn:Hs;
    simpl; [|discriminate].
  intros [= <-]. right.
  apply list_elem_of_lookup_2 in Hs. rewrite Hsorted, sort_Slice_Permutation in Hs.
  apply list_elem_of_lookup in Hs as [i Hi].
  destruct (Forall2_lookup_r _ _ _ _ _ Hl Hi) as (kv & Hkv & Hd & _).
  apply list_elem_of_lookup_2, elem_of_range in Hkv as [Hk Hp].
  exists (Key kv), (Value kv). split; [exact Hk|]. split; [exact Hp|].
  destruct (getSchemaDetailsFromKey_Return _ _ Hd) as [more Hsplit].
  unfold key_version. rewrite Hsplit. reflexivity.
Qed.

End more_listing.

(** ** semver: comparing in the other direction *)

Lemma ltb_antisym (x y : string) :
  x <> y -> String.ltb y x = negb (String.ltb x y).
Proof.
  intros Hne. unfold String.ltb. rewrite (String.compare_antisym y x).
  destruct (String.compare x y) eqn:Hc; try reflexivity.
  apply String.compare_eq_iff in Hc. contradiction.
Qed.

Lemma eqb_sym (x y : string) : String.eqb y x = String.eqb x y.
Proof.
  destruct (String.eqb x y) eqn:Hxy.
  - apply String.eqb_eq in Hxy. subst. apply String.eqb_refl.
  - apply String.eqb_neq. apply String.eqb_neq in Hxy. congruence.
Qed.

Lemma compareInt_antisym (x y : string) :
  semver.compareInt y x = - semver.compareInt x y.
Proof.
  unfold semver.compareInt. rewrite (eqb_sym x y).
  destruct (String.eqb x y) eqn:Hxy; [reflexivity|].
  apply String.eqb_neq in Hxy. rewrite (ltb_antisym x y Hxy).
  destruct (Nat.ltb_spec (String.length x) (String.length y)) as [Hlt | Hge];
    destruct (Nat.ltb_spec (String.length y) (String.length x)) as [Hlt' | Hge'];
    try lia; try reflexivity.
  destruct (String.ltb x y); reflexivity.
Qed.

Lemma compareInt_eq (x y : string) :
  semver.compareInt x y = 0 -> x = y.
Proof.
  unfold semver.compareInt.
  destruct (String.eqb x y) eqn:Hxy; [intros _; apply String.eqb_eq, Hxy|].
  destruct (Nat.ltb _ _); [discriminate|].
  destruct (Nat.ltb _ _); [discriminate|].
  destruct (String.ltb x y); discriminate.
Qed.

Lemma nextIdent_split (s d r : string) :
  semver.nextIdent s = (d, r) ->
  s = d +:+ r /\ (r = "" \/ semver.starts_with "." r = true).
Proof.
  revert d r. induction s as [|c s IH]; intros d r; simpl.
  - intros [= <- <-]. auto.
  - destruct (Ascii.eqb c ".") eqn:Hc.
    + intros [= <- <-]. split; [reflexivity|]. right. simpl. exact Hc.
    + destruct (semver.nextIdent s) as [d' r'] eqn:Hn. intros [= <- <-].
      destruct (IH d' r' eq_refl) as [-> Hr]. auto.
Qed.

Lemma append_inv_head (d a b : string) : d +:+ a = d +:+ b -> a = b.
Proof.
  induction d as [|c d IH]; [auto|].
  change (String c (d +:+ a) = String c (d +:+ b) -> a = b).
  intros [= Hd]. auto.
Qed.

Lemma starts_with_inv (c : ascii) (s : string) :
  semver.starts_with c s = true -> exists s', s = String c s'.
Proof.
  destruct s as [|d s]; simpl; [discriminate|].
  intros Hd. apply Ascii.eqb_eq in Hd. subst. eauto.
Qed.

Lemma compareIdent_antisym (dx dy : string) :
  dx <> dy -> compareIdent dy dx = - compareIdent dx dy.
Proof.
  intros Hne. unfold compareIdent. rewrite (ltb_antisym dx dy Hne).
  destruct (semver.isNum dx), (semver.isNum dy); simpl; try reflexivity.
  - destruct (Nat.ltb_spec (String.length dx) (String.length dy));
      destruct (Nat.ltb_spec (String.length dy) (String.length dx));
      try lia; try reflexivity.
    destruct (String.ltb dx dy); reflexivity.
  - destruct (String.ltb dx dy); reflexivity.
Qed.

Lemma comparePrerelease_loop_antisym (fuel : nat) :
  forall (x y : string) (c : ascii),
    x <> y ->
    x = "" \/ semver.starts_with c x = true ->
    y = "" \/ semver.starts_with c y = true ->
    (String.length x <= fuel)%nat ->
    (String.length y <= fuel)%nat ->
    semver.comparePrerelease_loop fuel y x
    = - semver.comparePrerelease_loop fuel x y.
Proof.
  induction fuel as [|fuel IH]; intros x y c Hne Hx Hy Hlx Hly.
  - destruct x as [|cx x]; [|simpl in Hlx; lia].
    destruct y as [|cy y]; [congruence | simpl in Hly; lia].
  - destruct x as [|cx x]; destruct y as [|cy y]; try congruence;
      try reflexivity.
    destruct Hx as [Hx | Hx]; [discriminate|].
    destruct Hy as [Hy | Hy]; [discriminate|].
    simpl in Hx, Hy. apply Ascii.eqb_eq in Hx, Hy. subst cx cy.
    simpl.
    destruct (semver.nextIdent x) as [dx x'] eqn:Hnx.
    destruct (semver.nextIdent y) as [dy y'] eqn:Hny.
    destruct (nextIdent_split _ _ _ Hnx) as [Hsx Hx'].
    destruct (nextIdent_split _ _ _ Hny) as [Hsy Hy'].
    pose proof (nextIdent_shorter x) as Hshx. rewrite Hnx in Hshx.
    pose proof (nextIdent_shorter y) as Hshy. rewrite Hny in Hshy.
    simpl in Hlx, Hly, Hshx, Hshy.
    rewrite (eqb_sym dx dy).
    destruct (String.eqb dx dy) eqn:Hd; simpl.
    + apply String.eqb_eq in Hd. subst dy.
      apply (IH x' y' "."%char); try lia; try assumption.
      intros ->. apply Hne. rewrite Hsx, Hsy. reflexivity.
    + apply String.eqb_neq in Hd.
      apply (compareIdent_antisym dx dy Hd).
Qed.

Lemma comparePrerelease_antisym (x y : string) :
  prerelease_shape x -> prerelease_shape y ->
  semver.comparePrerelease y x = - semver.comparePrerelease x y.
Proof.
  intros Hx Hy. unfold semver.comparePrerelease. rewrite (eqb_sym x y).
  destruct (String.eqb x y) eqn:Hxy; [reflexivity|].
  apply String.eqb_neq in Hxy.
  destruct x as [|cx x]; destruct y as [|cy y]; try congruence; try reflexivity.
  cbn [String.eqb].
  set (fuel := Nat.max (String.length (String cx x)) (String.length (String cy y))).
  rewrite (comparePrerelease_loop_rounds _ fuel (String cy y) (String cx x));
    [|lia|lia].
  rewrite (comparePrerelease_loop_rounds _ fuel (String cx x) (String cy y));
    [|lia|lia].
  apply (comparePrerelease_loop_antisym fuel _ _ "-"%char);
    [assumption | exact Hx | exact Hy | lia | lia].
Qed.

Lemma scanPrerelease_taken (s ident taken t r : string) :
  semver.scanPrerelease s ident taken = Some (t, r) ->
  exists u, t = taken +:+ u.
Proof.
  revert ident taken. induction s as [|c s IH]; intros ident taken; simpl.
  - destruct (_ || _); [discriminate|]. intros [= <- <-].
    exists "". symmetry. clear. induction taken as [|x a IHa]; [reflexivity|].
    change (String x (a +:+ "") = String x a). rewrite IHa. reflexivity.
  - destruct (Ascii.eqb c "+").
    { destruct (_ || _); [discriminate|]. intros [= <- <-].
      exists "". symmetry. clear. induction taken as [|x a IHa]; [reflexivity|].
      change (String x (a +:+ "") = String x a). rewrite IHa. reflexivity. }
    destruct (_ && _); [discriminate|].
    assert (Hstep : forall ident',
               semver.scanPrerelease s ident' (taken +:+ String c "") = Some (t, r) ->
               exists u, t = taken +:+ u).
    { intros ident' Hs. destruct (IH _ _ Hs) as [u ->].
      exists (String c "" +:+ u). clear.
      induction taken as [|x a IHa]; [reflexivity|].
      change (String x ((a +:+ String c "") +:+ u)
              = String x (a +:+ String c "" +:+ u)).
      rewrite IHa. reflexivity. }
    destruct (Ascii.eqb c ".").
    + destruct (_ || _); [discriminate|]. apply Hstep.
    + apply Hstep.
Qed.

Lemma parse_prerelease_shape (v : string) (p : semver.parsed) :
  semver.parse v = Some p -> prerelease_shape (semver.prerelease p).
Proof.
  unfold semver.parse.
  destruct (negb (semver.starts_with "v" v)); [discriminate|].
  destruct (semver.parseInt (semver.tail v)) as [[ma v1]|]; [|discriminate].
  destruct (String.eqb v1 ""); [intros [= <-]; left; reflexivity|].
  destruct (negb (semver.starts_with "." v1)); [discriminate|].
  destruct (semver.parseInt (semver.tail v1)) as [[mi v2]|]; [|discriminate].
  destruct (String.eqb v2 ""); [intros [= <-]; left; reflexivity|].
  destruct (negb (semver.starts_with "." v2)); [discriminate|].
  destruct (semver.parseInt (semver.tail v2)) as [[pa v3]|]; [|discriminate].
  unfold semver.parse_suffix.
  destruct (semver.starts_with "-" v3) eqn:Hdash.
  - destruct (semver.parsePrerelease v3) as [[pre v4]|] eqn:Hpre; [|discriminate].
    destruct (if semver.starts_with "+" v4 then _ else _) as [[bu v5]|];
      [|discriminate].
    destruct (String.eqb v5 ""); [|discriminate]. intros [= <-]. simpl.
    unfold semver.parsePrerelease in Hpre.
    destruct v3 as [|c v3]; [discriminate|].
    destruct (Ascii.eqb c "-") eqn:Hc; [|discriminate].
    destruct (scanPrerelease_taken _ _ _ _ _ Hpre) as [u ->].
    right. simpl. exact Hc.
  - destruct (if semver.starts_with "+" v3 then _ else _) as [[bu v5]|];
      [|discriminate].
    destruct (String.eqb v5 ""); [|discriminate]. intros [= <-]. left. reflexivity.
Qed.

(** Comparing the other way round gives the opposite result. *)
Lemma Compare_antisym (v w : string) :
  semver.Compare w v = - semver.Compare v w.
Proof.
  unfold semver.Compare.
  destruct (semver.parse v) as [pv|] eqn:Hv; destruct (semver.parse w) as [pw|] eqn:Hw;
    try reflexivity.
  rewrite (compareInt_antisym (semver.major pv) (semver.major pw)).
  destruct (semver.compareInt (semver.major pv) (semver.major pw)) eqn:Hma;
    try reflexivity.
  simpl.
  rewrite (compareInt_antisym (semver.minor pv) (semver.minor pw)).
  destruct (semver.compareInt (semver.minor pv) (semver.minor pw)) eqn:Hmi;
    try reflexivity.
  simpl.
  rewrite (compareInt_antisym (semver.patch pv) (semver.patch pw)).
  destruct (semver.compareInt (semver.patch pv) (semver.patch pw)) eqn:Hpa;
    try reflexivity.
  simpl.
  apply comparePrerelease_antisym; eapply parse_prerelease_shape; eassumption.
Qed.

(** ** semver: precedence is transitive *)

Lemma ascii_compare_refl (a : ascii) : Ascii.compare a a = Eq.
Proof. unfold Ascii.compare. apply N.compare_refl. Qed.

Lemma string_compare_refl (x : string) : String.compare x x = Eq.
Proof.
  induction x as [|a x IH]; [reflexivity|]. simpl.
  rewrite ascii_compare_refl. exact IH.
Qed.

Lemma string_compare_trans (x y z : string) :
  String.compare x y = Lt -> String.compare y z = Lt -> String.compare x z = Lt.
Proof.
  revert y z. induction x as [|a x IH]; intros [|b y] [|c z]; simpl;
    try discriminate; try reflexivity.
  destruct (Ascii.compare a b) eqn:Hab; try discriminate;
    destruct (Ascii.compare b c) eqn:Hbc; try discriminate; intros Hxy Hyz.
  - apply Ascii.compare_eq_iff in Hab, Hbc. subst.
    rewrite ascii_compare_refl. eauto.
  - apply Ascii.compare_eq_iff in Hab. subst. rewrite Hbc. reflexivity.
  - apply Ascii.compare_eq_iff in Hbc. subst. rewrite Hab. reflexivity.
  - unfold Ascii.compare in *. rewrite N.compare_lt_iff in Hab, Hbc.
    assert (Hac : (N_of_ascii a < N_of_ascii c)%N) by lia.
    apply N.compare_lt_iff in Hac. rewrite Hac. reflexivity.
Qed.

Lemma ltb_irrefl (x : string) : String.ltb x x = false.
Proof. unfold String.ltb. rewrite string_compare_refl. reflexivity. Qed.

Lemma ltb_trans (x y z : string) :
  String.ltb x y = true -> String.ltb y z = true -> String.ltb x z = true.
Proof.
  unfold String.ltb.
  destruct (String.compare x y) eqn:Hxy; try discriminate.
  destruct (String.compare y z) eqn:Hyz; try discriminate.
  rewrite (string_compare_trans _ _ _ Hxy Hyz). reflexivity.
Qed.

Lemma compareInt_refl (x : string) : semver.compareInt x x = 0.
Proof. unfold semver.compareInt. rewrite String.eqb_refl. reflexivity. Qed.

Lemma compareInt_lt (x y : string) :
  semver.compareInt x y = -1
  <-> (String.length x < String.length y)%nat
      \/ (String.length x = String.length y /\ String.ltb x y = true).
Proof.
  unfold semver.compareInt.
  destruct (String.eqb x y) eqn:Hxy.
  - apply String.eqb_eq in Hxy. subst. rewrite ltb_irrefl.
    split; [discriminate | intros [? | [_ ?]]; [lia | discriminate]].
  - destruct (Nat.ltb_spec (String.length x) (String.length y));
      [split; auto|].
    destruct (Nat.ltb_spec (String.length y) (String.length x)).
    + split; [discriminate | intros [? | [? _]]; lia].
    + destruct (String.ltb x y).
      * split; [right; split; [lia | reflexivity] | reflexivity].
      * split; [discriminate | intros [? | [_ ?]]; [lia | discriminate]].
Qed.

Lemma compareInt_trans (x y z : string) :
  semver.compareInt x y = -1 -> semver.compareInt y z = -1 ->
  semver.compareInt x z = -1.
Proof.
  rewrite !compareInt_lt.
  intros [Hxy | [Hxy Lxy]] [Hyz | [Hyz Lyz]]; try (left; lia).
  right. split; [lia|]. eapply ltb_trans; eassumption.
Qed.

Lemma compareInt_range (x y : string) :
  semver.compareInt x y = -1 \/ semver.compareInt x y = 0
  \/ semver.compareInt x y = 1.
Proof.
  unfold semver.compareInt.
  destruct (String.eqb x y); [auto|].
  destruct (Nat.ltb _ _); [auto|]. destruct (Nat.ltb _ _); [auto|].
  destruct (String.ltb x y); auto.
Qed.

Lemma compareIdent_range (dx dy : string) :
  compareIdent dx dy = -1 \/ compareIdent dx dy = 1.
Proof.
  unfold compareIdent.
  destruct (negb _); [destruct (semver.isNum dx); auto|].
  destruct (_ && _); [auto|]. destruct (_ && _); [auto|].
  destruct (String.ltb dx dy); auto.
Qed.

Lemma compareIdent_trans (dx dy dz : string) :
  compareIdent dx dy = -1 -> compareIdent dy dz = -1 -> compareIdent dx dz = -1.
Proof.
  unfold compareIdent.
  destruct (semver.isNum dx), (semver.isNum dy), (semver.isNum dz); simpl;
    try discriminate; try reflexivity.
  - destruct (Nat.ltb_spec (String.length dx) (String.length dy));
      destruct (Nat.ltb_spec (String.length dy) (String.length dx));
      destruct (Nat.ltb_spec (String.length dy) (String.length dz));
      destruct (Nat.ltb_spec (String.length dz) (String.length dy));
      destruct (Nat.ltb_spec (String.length dx) (String.length dz));
      destruct (Nat.ltb_spec (String.length dz) (String.length dx));
      try lia; try discriminate; try reflexivity.
    destruct (String.ltb dx dy) eqn:Hxy; [|discriminate].
    destruct (String.ltb dy dz) eqn:Hyz; [|discriminate].
    rewrite (ltb_trans _ _ _ Hxy Hyz). reflexivity.
  - destruct (String.ltb dx dy) eqn:Hxy; [|discriminate].
    destruct (String.ltb dy dz) eqn:Hyz; [|discriminate].
    rewrite (ltb_trans _ _ _ Hxy Hyz). reflexivity.
Qed.

Lemma compareIdent_irrefl (d : string) : compareIdent d d = 1.
Proof.
  unfold compareIdent. rewrite ltb_irrefl, Nat.ltb_irrefl.
  destruct (semver.isNum d); reflexivity.
Qed.

Lemma comparePrerelease_loop_nonzero (fuel : nat) :
  forall x y : string,
    (String.length x <= fuel)%nat ->
    semver.comparePrerelease_loop fuel x y <> 0.
Proof.
  induction fuel as [|fuel IH]; intros x y Hl.
  - destruct x as [|c x]; [discriminate | simpl in Hl; lia].
  - destruct x as [|cx x]; [discriminate|].
    destruct y as [|cy y]; [discriminate|]. simpl.
    pose proof (nextIdent_shorter x) as Hsh.
    destruct (semver.nextIdent x) as [dx x'].
    destruct (semver.nextIdent y) as [dy y'].
    destruct (negb (String.eqb dx dy)).
    + destruct (compareIdent_range dx dy) as [Hc | Hc];
        unfold compareIdent in Hc; rewrite Hc; discriminate.
    + apply IH. simpl in Hl, Hsh. lia.
Qed.

Lemma comparePrerelease_loop_trans (fuel : nat) :
  forall (x y z : string) (c : ascii),
    x = "" \/ semver.starts_with c x = true ->
    y = "" \/ semver.starts_with c y = true ->
    z = "" \/ semver.starts_with c z = true ->
    (String.length x <= fuel)%nat ->
    (String.length y <= fuel)%nat ->
    (String.length z <= fuel)%nat ->
    semver.comparePrerelease_loop fuel x y = -1 ->
    semver.comparePrerelease_loop fuel y z = -1 ->
    semver.comparePrerelease_loop fuel x z = -1.
Proof.
  induction fuel as [|fuel IH]; intros x y z c Hx Hy Hz Hlx Hly Hlz.
  - destruct x as [|cx x]; [|simpl in Hlx; lia]. reflexivity.
  - destruct x as [|cx x]; [reflexivity|].
    destruct y as [|cy y]; [discriminate|].
    destruct z as [|cz z]; [discriminate|].
    destruct Hx as [Hx | Hx]; [discriminate|].
    destruct Hy as [Hy | Hy]; [discriminate|].
    destruct Hz as [Hz | Hz]; [discriminate|].
    simpl.
    pose proof (nextIdent_shorter x) as Hshx.
    pose proof (nextIdent_shorter y) as Hshy.
    pose proof (nextIdent_shorter z) as Hshz.
    destruct (semver.nextIdent x) as [dx x'] eqn:Hnx.
    destruct (semver.nextIdent y) as [dy y'] eqn:Hny.
    destruct (semver.nextIdent z) as [dz z'] eqn:Hnz.
    destruct (nextIdent_split _ _ _ Hnx) as [_ Hx'].
    destruct (nextIdent_split _ _ _ Hny) as [_ Hy'].
    destruct (nextIdent_split _ _ _ Hnz) as [_ Hz'].
    simpl in Hlx, Hly, Hlz, Hshx, Hshy, Hshz.
    fold (compareIdent dx dy). fold (compareIdent dy dz).
    fold (compareIdent dx dz).
    destruct (String.eqb dx dy) eqn:Hxy; destruct (String.eqb dy dz) eqn:Hyz;
      simpl.
    + apply String.eqb_eq in Hxy, Hyz. subst dy dz.
      rewrite String.eqb_refl. simpl.
      apply (IH x' y' z' "."%char); assumption || lia.
    + apply String.eqb_eq in Hxy. subst dy. rewrite Hyz. simpl. auto.
    + apply String.eqb_eq in Hyz. subst dz. rewrite Hxy. simpl. auto.
    + intros Hc1 Hc2. pose proof (compareIdent_trans _ _ _ Hc1 Hc2) as Hc.
      destruct (String.eqb dx dz) eqn:Hxz; simpl; [|exact Hc].
      apply String.eqb_eq in Hxz. subst dz.
      rewrite compareIdent_irrefl in Hc. discriminate.
Qed.

Lemma comparePrerelease_refl (x : string) : semver.comparePrerelease x x = 0.
Proof. unfold semver.comparePrerelease. rewrite String.eqb_refl. reflexivity. Qed.

Lemma comparePrerelease_eq (x y : string) :
  semver.comparePrerelease x y = 0 -> x = y.
Proof.
  unfold semver.comparePrerelease.
  destruct (String.eqb x y) eqn:Hxy; [intros _; apply String.eqb_eq, Hxy|].
  destruct (String.eqb x ""); [discriminate|].
  destruct (String.eqb y ""); [discriminate|].
  intros Hl. apply comparePrerelease_loop_nonzero in Hl; [contradiction | lia].
Qed.

Lemma comparePrerelease_range (x y : string) :
  semver.comparePrerelease x y = -1 \/ semver.comparePrerelease x y = 0
  \/ semver.comparePrerelease x y = 1.
Proof.
  unfold semver.comparePrerelease.
  destruct (String.eqb x y); [auto|].
  destruct (String.eqb x ""); [auto|].
  destruct (String.eqb y ""); [auto|].
  generalize (String.length x). intros fuel. revert x y.
  induction fuel as [|fuel IH]; intros x y.
  - destruct x; [auto|]. destruct y; simpl; auto.
  - destruct x as [|cx x]; [auto|]. destruct y as [|cy y]; [simpl; auto|].
    simpl.
    destruct (semver.nextIdent x) as [dx x'].
    destruct (semver.nextIdent y) as [dy y'].
    destruct (negb (String.eqb dx dy)); [|apply IH].
    destruct (compareIdent_range dx dy) as [Hc | Hc];
      unfold compareIdent in Hc; rewrite Hc; auto.
Qed.

Lemma comparePrerelease_nonempty (x y : string) (fuel : nat) :
  x <> y -> x <> "" -> y <> "" ->
  (String.length x <= fuel)%nat ->
  semver.comparePrerelease x y = semver.comparePrerelease_loop fuel x y.
Proof.
  intros Hxy Hx Hy Hl. unfold semver.comparePrerelease.
  apply String.eqb_neq in Hxy, Hx, Hy. rewrite Hxy, Hx, Hy.
  apply comparePrerelease_loop_rounds; lia.
Qed.

Lemma comparePrerelease_lower (x y : string) :
  semver.comparePrerelease x y = -1 -> x <> "" /\ x <> y.
Proof.
  unfold semver.comparePrerelease.
  destruct (String.eqb x y) eqn:Hxy; [discriminate|].
  destruct (String.eqb x "") eqn:Hx; [discriminate|].
  intros _. apply String.eqb_neq in Hxy, Hx. auto.
Qed.

Lemma comparePrerelease_trans (x y z : string) :
  prerelease_shape x -> prerelease_shape y -> prerelease_shape z ->
  semver.comparePrerelease x y = -1 ->
  semver.comparePrerelease y z = -1 ->
  semver.comparePrerelease x z = -1.
Proof.
  intros Sx Sy Sz Hxy Hyz.
  destruct (comparePrerelease_lower _ _ Hxy) as [Hx Nxy].
  destruct (comparePrerelease_lower _ _ Hyz) as [Hy Nyz].
  assert (Hzy : semver.comparePrerelease z y = 1).
  { rewrite (comparePrerelease_antisym y z Sy Sz), Hyz. reflexivity. }
  destruct (String.eqb z "") eqn:Ez.
  { apply String.eqb_eq in Ez. subst z. unfold semver.comparePrerelease.
    apply String.eqb_neq in Hx. rewrite Hx. reflexivity. }
  apply String.eqb_neq in Ez.
  assert (Nxz : x <> z).
  { intros ->. rewrite Hxy in Hzy. discriminate. }
  set (fuel := Nat.max (String.length x)
                 (Nat.max (String.length y) (String.length z))).
  rewrite (comparePrerelease_nonempty x y fuel) in Hxy by (auto; lia).
  rewrite (comparePrerelease_nonempty y z fuel) in Hyz by (auto; lia).
  rewrite (comparePrerelease_nonempty x z fuel) by (auto; lia).
  apply (comparePrerelease_loop_trans fuel x y z "-"%char);
    try assumption; lia.
Qed.

Lemma Compare_range (v w : string) :
  semver.Compare v w = -1 \/ semver.Compare v w = 0 \/ semver.Compare v w = 1.
Proof.
  unfold semver.Compare.
  destruct (semver.parse v) as [pv|]; destruct (semver.parse w) as [pw|]; auto.
  destruct (compareInt_range (semver.major pv) (semver.major pw))
    as [-> | [-> | ->]]; auto.
  destruct (compareInt_range (semver.minor pv) (semver.minor pw))
    as [-> | [-> | ->]]; auto.
  destruct (compareInt_range (semver.patch pv) (semver.patch pw))
    as [-> | [-> | ->]]; auto.
  apply comparePrerelease_range.
Qed.

Lemma lexicographic_trans (c12 c23 c13 r12 r23 r13 : Z) :
  (c12 = -1 \/ c12 = 0 \/ c12 = 1) ->
  (c23 = -1 \/ c23 = 0 \/ c23 = 1) ->
  (c12 = -1 -> c23 = -1 -> c13 = -1) ->
  (c12 = 0 -> c13 = c23) ->
  (c23 = 0 -> c13 = c12) ->
  (c12 = 0 -> c23 = 0 -> r12 = -1 -> r23 = -1 -> r13 = -1) ->
  (if negb (c12 =? 0) then c12 else r12) = -1 ->
  (if negb (c23 =? 0) then c23 else r23) = -1 ->
  (if negb (c13 =? 0) then c13 else r13) = -1.
Proof.
  intros [-> | [-> | ->]] [-> | [-> | ->]] Htrans Hl Hr Hrest; simpl;
    try discriminate; intros H12 H23.
  - rewrite (Htrans eq_refl eq_refl). reflexivity.
  - rewrite (Hr eq_refl). reflexivity.
  - rewrite (Hl eq_refl). reflexivity.
  - rewrite (Hl eq_refl). simpl. auto.
Qed.

Lemma compareInt_trans_facts (x y z : string) :
  (semver.compareInt x y = -1 \/ semver.compareInt x y = 0
   \/ semver.compareInt x y = 1)
  /\ (semver.compareInt y z = -1 \/ semver.compareInt y z = 0
      \/ semver.compareInt y z = 1)
  /\ (semver.compareInt x y = -1 -> semver.compareInt y z = -1 ->
      semver.compareInt x z = -1)
  /\ (semver.compareInt x y = 0 -> semver.compareInt x z = semver.compareInt y z)
  /\ (semver.compareInt y z = 0 -> semver.compareInt x z = semver.compareInt x y).
Proof.
  split; [apply compareInt_range|]. split; [apply compareInt_range|].
  split; [apply compareInt_trans|]. split.
  - intros Hxy. apply compareInt_eq in Hxy. subst. reflexivity.
  - intros Hyz. apply compareInt_eq in Hyz. subst. reflexivity.
Qed.

(** Lower than lower is lower. *)
Lemma Compare_trans (u v w : string) :
  semver.Compare u v = -1 -> semver.Compare v w = -1 -> semver.Compare u w = -1.
Proof.
  unfold semver.Compare.
  destruct (semver.parse u) as [pu|] eqn:Hu;
    destruct (semver.parse v) as [pv|] eqn:Hv;
    destruct (semver.parse w) as [pw|] eqn:Hw;
    try discriminate; try reflexivity.
  pose proof (parse_prerelease_shape _ _ Hu) as Su.
  pose proof (parse_prerelease_shape _ _ Hv) as Sv.
  pose proof (parse_prerelease_shape _ _ Hw) as Sw.
  destruct (compareInt_trans_facts (semver.major pu) (semver.major pv)
              (semver.major pw)) as (A1 & A2 & A3 & A4 & A5).
  destruct (compareInt_trans_facts (semver.minor pu) (semver.minor pv)
              (semver.minor pw)) as (B1 & B2 & B3 & B4 & B5).
  destruct (compareInt_trans_facts (semver.patch pu) (semver.patch pv)
              (semver.patch pw)) as (C1 & C2 & C3 & C4 & C5).
  cbv zeta.
  apply lexicographic_trans; try assumption. intros _ _.
  apply lexicographic_trans; try assumption. intros _ _.
  apply lexicographic_trans; try assumption. intros _ _.
  apply comparePrerelease_trans; assumption.
Qed.

(** Equal in precedence: the two compare alike with every third. *)
Lemma Compare_equal (u v w : string) :
  semver.Compare u v = 0 -> semver.Compare u w = semver.Compare v w.
Proof.
  unfold semver.Compare.
  destruct (semver.parse u) as [pu|] eqn:Hu;
    destruct (semver.parse v) as [pv|] eqn:Hv;
    try discriminate; [|reflexivity].
  cbv zeta.
  destruct (semver.compareInt (semver.major pu) (semver.major pv)) eqn:A;
    simpl; try discriminate.
  destruct (semver.compareInt (semver.minor pu) (semver.minor pv)) eqn:B;
    simpl; try discriminate.
  destruct (semver.compareInt (semver.patch pu) (semver.patch pv)) eqn:C;
    simpl; try discriminate.
  intros P. apply compareInt_eq in A, B, C. apply comparePrerelease_eq in P.
  rewrite A, B, C, P. reflexivity.
Qed.

(** Not lower than, twice, is not lower than. *)
Lemma Compare_not_lower_trans (u v w : string) :
  semver.Compare v u <> -1 -> semver.Compare w v <> -1 ->
  semver.Compare w u <> -1.
Proof.
  intros Hvu Hwv Hwu.
  destruct (Compare_range w v) as [Hc | [Hc | Hc]]; [contradiction| |].
  - rewrite (Compare_equal w v u Hc) in Hwu. contradiction.
  - assert (Hvw : semver.Compare v w = -1)
      by (rewrite (Compare_antisym w v), Hc; reflexivity).
    apply Hvu. apply (Compare_trans v w u); assumption.
Qed.

(** ** sort.Slice sorts *)

Section insertion.

Context {A : Type} (less : A -> A -> bool).

Hypothesis less_asym : forall a b, less a b = true -> less b a = false.

Lemma sink_Sorted (x : A) (left : list A) :
Sorted (fun a b => less a b = false) left ->
Sorted (fun a b => less a b = false) (sink less x left).
Proof.
induction left as [|y left IH]; intros Hs; simpl.
- repeat constructor.
- destruct (less x y) eqn:Hxy.
  + apply Sorted_inv in Hs as [Hs Hhd]. constructor; [auto|].
    destruct left as [|y' left]; simpl.
    * constructor. apply less_asym. exact Hxy.
    * destruct (less x y'); constructor.
      -- inversion Hhd. assumption.
      -- apply less_asym. exact Hxy.
  + constructor; [exact Hs|]. constructor. exact Hxy.
Qed.

(** No element of the result is less than the one before it. *)
Lemma sort_Slice_Sorted (data : list A) :
Sorted (fun a b => less b a = false) (sort_Slice data less).
Proof.
unfold sort_Slice. apply Sorted_reverse. unfold flip.
assert (Hgen : forall left,
           Sorted (fun a b => less a b = false) left ->
           Sorted (fun a b => less a b = false)
                  (fold_left (fun left x => sink less x left) data left)).
{ induction data as [|x data IH]; intros left Hs; [exact Hs|].
  simpl. apply IH, sink_Sorted, Hs. }
apply Hgen. constructor.
Qed.

Hypothesis not_less_trans :
forall a b c, less b a = false -> less c b = false -> less c a = false.

(** No element of the result is less than any element before it. *)
Lemma sort_Slice_StronglySorted (data : list A) :
StronglySorted (fun a b => less b a = false) (sort_Slice data less).
Proof.
apply Sorted.Sorted_StronglySorted; [|apply sort_Slice_Sorted].
intros a b c Hab Hbc. eapply not_less_trans; eassumption.
Qed.

End insertion.

Lemma StronglySorted_weaken {A : Type} (R S : A -> A -> Prop) (l : list A) :
  (forall a b, R a b -> S a b) -> StronglySorted R l -> StronglySorted S l.
Proof.
  intros HRS. induction 1 as [|x l Hl IH Hx]; constructor; [exact IH|].
  eapply Forall_impl; [exact Hx|]. intros b. apply HRS.
Qed.

Lemma Compare_refl (v : string) : semver.Compare v v = 0.
Proof.
  unfold semver.Compare. destruct (semver.parse v) as [p|]; [|reflexivity].
  rewrite !compareInt_refl. simpl. apply comparePrerelease_refl.
Qed.

Lemma version_less_false (a b : ConfigSchema) :
  version_less a b = false <-> not_lower (version_of b) (version_of a).
Proof.
  unfold version_less, not_lower, version_of. apply Z.eqb_neq.
Qed.

Lemma version_less_asym (a b : ConfigSchema) :
  version_less a b = true -> version_less b a = false.
Proof.
  unfold version_less. intros Hab. apply Z.eqb_eq in Hab. apply Z.eqb_neq.
  rewrite (Compare_antisym (GetVersion (GetSchemaDetails a))), Hab. discriminate.
Qed.

Lemma version_less_trans (a b c : ConfigSchema) :
  version_less b a = false -> version_less c b = false ->
  version_less c a = false.
Proof.
  unfold version_less. rewrite !Z.eqb_neq. intros Hba Hcb.
  eapply Compare_not_lower_trans; eassumption.
Qed.

Section sorted_listing.

Context `{Codec}.

(** X20. The listing is in ascending precedence: no entry is lower, for
  semver.Compare, than an entry that comes before it.  For the at most
  twelve entries that sort.Slice sorts by insertion. *)
Theorem GetSchemasByPrefix_ascending
  (prefix : string) (w : World) (schemas : list ConfigSchema) :
fst (run (GetSchemasByPrefix prefix) w) = Returns (schemas, None) ->
(length schemas <= 12)%nat ->
StronglySorted (fun a b => not_lower (version_of a) (version_of b)) schemas.
Proof.
intros Hlist _.
destruct (GetSchemasByPrefix_Returns _ _ _ Hlist) as (_ & l & _ & ->).
pose proof (sort_Slice_StronglySorted version_less version_less_asym
              version_less_trans l) as Hs.
eapply StronglySorted_weaken; [|exact Hs].
intros a b Hab. apply version_less_false in Hab. exact Hab.
Qed.

(** X21. The latest version is not lower than the version of any entry of the
  listing.  For the at most twelve entries that sort.Slice sorts by
  insertion. *)
Theorem GetLatestVersionByPrefix_highest
  (prefix latest : string) (w : World) (schemas : list ConfigSchema)
  (c : ConfigSchema) :
fst (run (GetLatestVersionByPrefix prefix) w) = Returns (latest, None) ->
fst (run (GetSchemasByPrefix prefix) w) = Returns (schemas, None) ->
(length schemas <= 12)%nat ->
c ∈ schemas ->
not_lower (version_of c) latest.
Proof.
intros Hlatest Hlist _ Hc.
assert (Hlast : exists s, last schemas = Some s /\ latest = version_of s).
{ revert Hlatest. unfold GetLatestVersionByPrefix. rewrite run_bind.
  destruct (run (GetSchemasByPrefix prefix) w) as [[[schemas' [e|]] | msg] w'];
    simpl in Hlist; try discriminate.
  injection Hlist as ->. simpl.
  destruct schemas as [|c0 schemas]; [inversion Hc|].
  rewrite last_lookup. unfold index. simpl length. simpl Nat.eqb. cbv iota.
  replace (S (length schemas) - 1)%nat with (pred (S (length schemas))) by lia.
  destruct ((c0 :: schemas) !! pred (S (length schemas))) as [s|];
    simpl; [|discriminate].
  intros [= <-]. eauto. }
destruct Hlast as (s & Hs & ->).
destruct (GetSchemasByPrefix_Returns _ _ _ Hlist) as (_ & l & _ & Hsorted).
pose proof (sort_Slice_StronglySorted version_less version_less_asym
              version_less_trans l) as Hstrong.
rewrite <- Hsorted in Hstrong.
apply last_Some in Hs as [front ->].
apply elem_of_app in Hc as [Hc | Hc].
- apply version_less_false.
  apply (StronglySorted_app_1_elem_of _ _ _ _ _ Hstrong Hc). left.
- apply list_elem_of_singleton in Hc. subst c. unfold not_lower.
  rewrite Compare_refl. discriminate.
Qed.

End sorted_listing.

Section races.

Context `{Codec}.





End races.

(** ** The further statements on concrete stores *)

Lemma client_error_is_returned_witness :
  next_fault unreachable = Some deadline_exceeded
  /\ fst (run (SaveConfigSchema first_key "a: 2") unreachable)
     = Returns (Some deadline_exceeded)
  /\ fst (run (GetSchemasByPrefix "org/") unreachable)
     = Returns ([], Some deadline_exceeded)
  /\ store (snd (run (DeleteConfigSchema first_key) unreachable)) !! first_key
     = Some first_value.
Proof.
  destruct (client_error_is_returned first_key "a: 2" "org/" unreachable
              deadline_exceeded eq_refl)
    as (Hsave & _ & Hdelete & Hlist & _ & _).
  split; [reflexivity|]. rewrite Hsave, Hdelete, Hlist.
  split; [reflexivity|]. split; [reflexivity|]. vm_compute. reflexivity.
Defined.

Lemma SaveConfigSchema_creates_witness :
  store Plain.empty_world !! first_key = None
  /\ fst (run (SaveConfigSchema first_key "a: 1") Plain.empty_world) = Returns None
  /\ store (snd (run (SaveConfigSchema first_key "a: 1") Plain.empty_world))
       !! first_key
     = Some first_value.
Proof.
  split; [reflexivity|].
  rewrite (SaveConfigSchema_creates first_key "a: 1" "a: 1" first_value
             Plain.empty_world); try reflexivity.
  split; [reflexivity|]. vm_compute. reflexivity.
Defined.

Lemma SaveConfigSchema_rejected_witness :
  store Plain.empty_world !! first_key = None
  /\ yaml_YAMLToJSON (Codec := strict_codec) tabbed_schema = ("", Some tab_rejected)
  /\ run (SaveConfigSchema (H := strict_codec) first_key tabbed_schema)
         Plain.empty_world
     = (Returns (Some tab_rejected), Plain.empty_world).
Proof.
  split; [reflexivity|]. split; [reflexivity|].
  apply (proj1 (SaveConfigSchema_rejected (H := strict_codec) first_key
                  tabbed_schema Plain.empty_world eq_refl eq_refl)
           "" tab_rejected).
  reflexivity.
Defined.

Lemma other_keys_untouched_witness :
  "org/ns/name/v1.0.0" <> "org/ns/name/v2.0.0"
  /\ store (snd (run (SaveConfigSchema "org/ns/name/v2.0.0" "a: 2") saved_once))
       !! "org/ns/name/v1.0.0"
     = Some first_value
  /\ store (snd (run (DeleteConfigSchema "org/ns/name/v2.0.0") saved_once))
       !! "org/ns/name/v1.0.0"
     = Some first_value.
Proof.
  assert (Hne : "org/ns/name/v1.0.0" <> "org/ns/name/v2.0.0") by discriminate.
  destruct (other_keys_untouched "org/ns/name/v2.0.0" "org/ns/name/v1.0.0" "a: 2"
              saved_once Hne) as [Hsave Hdelete].
  split; [exact Hne|]. rewrite Hsave, Hdelete.
  split; vm_compute; reflexivity.
Defined.

Lemma GetConfigSchema_absent_iff_witness :
  next_fault corrupted = None
  /\ (fst (run (GetConfigSchema "org/ns/name/v2.0.0") corrupted)
      = Returns (None, None)
      <-> store corrupted !! "org/ns/name/v2.0.0" = None)
  /\ store corrupted !! "org/ns/name/v2.0.0" = Some "garbage".
Proof.
  split; [reflexivity|]. split.
  - apply (GetConfigSchema_absent_iff "org/ns/name/v2.0.0" corrupted).
    reflexivity.
  - vm_compute. reflexivity.
Defined.

Lemma GetConfigSchema_corrupt_witness :
  store corrupted !! "org/ns/name/v2.0.0" = Some "garbage"
  /\ snd (json_Unmarshal "garbage")
     = Some (codec_error "unexpected end of input")
  /\ fst (run (GetConfigSchema "org/ns/name/v2.0.0") corrupted)
     = Returns (None, Some (codec_error "unexpected end of input")).
Proof.
  assert (Hk : store corrupted !! "org/ns/name/v2.0.0" = Some "garbage")
    by (vm_compute; reflexivity).
  split; [exact Hk|]. split; [reflexivity|].
  apply (proj1 (GetConfigSchema_corrupt "org/ns/name/v2.0.0" "garbage" corrupted
                  Hk eq_refl)).
  reflexivity.
Defined.

Lemma SaveConfigSchema_then_Delete_witness :
  run (SaveConfigSchema first_key "a: 1") Plain.empty_world = (Returns None, saved_once)
  /\ fst (run (DeleteConfigSchema first_key) saved_once) = Returns None
  /\ store (snd (run (DeleteConfigSchema first_key) saved_once))
     = store Plain.empty_world.
Proof.
  assert (Hsave : run (SaveConfigSchema first_key "a: 1") Plain.empty_world
                  = (Returns None, saved_once))
    by (vm_compute; reflexivity).
  split; [exact Hsave|].
  apply (SaveConfigSchema_then_Delete first_key "a: 1" Plain.empty_world saved_once
           Hsave).
  reflexivity.
Defined.

Lemma DeleteConfigSchema_then_Save_witness :
  is_Some (store saved_once !! first_key)
  /\ fst (run_each [DeleteConfigSchema first_key; SaveConfigSchema first_key "a: 2"]
            saved_once)
     = [Returns None; Returns None]
  /\ store (snd (run_each [DeleteConfigSchema first_key;
                           SaveConfigSchema first_key "a: 2"] saved_once))
     = <[first_key := "1700000000.42|a: 2"]> (store saved_once).
Proof.
  assert (Hk : is_Some (store saved_once !! first_key)).
  { exists first_value. vm_compute. reflexivity. }
  split; [exact Hk|].
  apply (DeleteConfigSchema_then_Save first_key "a: 2" "a: 2" "1700000000.42|a: 2"
           saved_once Hk); reflexivity.
Defined.

Lemma SaveConfigSchema_then_Get_witness :
  run (SaveConfigSchema first_key "a: 1") Plain.empty_world = (Returns None, saved_once)
  /\ fst (run (GetConfigSchema first_key) saved_once)
     = Returns (Some first_envelope, None).
Proof.
  assert (Hsave : run (SaveConfigSchema first_key "a: 1") Plain.empty_world
                  = (Returns None, saved_once))
    by (vm_compute; reflexivity).
  split; [exact Hsave|].
  rewrite (SaveConfigSchema_then_Get first_key "a: 1" "a: 1" first_value
             Plain.empty_world saved_once Hsave); reflexivity.
Defined.

Lemma getSchemaDetailsFromKey_format_key_witness :
  strings_Count "org" "/" = 0%nat
  /\ format_key (SchemaDetails first_entry) = first_key
  /\ getSchemaDetailsFromKey first_key = Return (SchemaDetails first_entry).
Proof.
  split; [reflexivity|]. split; [reflexivity|].
  apply (getSchemaDetailsFromKey_format_key (SchemaDetails first_entry));
    reflexivity.
Defined.

Lemma format_key_getSchemaDetailsFromKey_witness :
  strings_Count first_key "/" = 3%nat
  /\ getSchemaDetailsFromKey first_key = Return (SchemaDetails first_entry)
  /\ format_key (SchemaDetails first_entry) = first_key.
Proof.
  split; [reflexivity|]. split; [reflexivity|].
  apply (format_key_getSchemaDetailsFromKey first_key (SchemaDetails first_entry));
    reflexivity.
Defined.

Lemma GetSchemasByPrefix_nothing_under_prefix_witness :
  next_fault saved_once = None
  /\ (forall key value,
        store saved_once !! key = Some value -> String.prefix "other/" key = false)
  /\ fst (run (GetSchemasByPrefix "other/") saved_once) = Returns ([], None)
  /\ fst (run (GetLatestVersionByPrefix "other/") saved_once) = Returns ("", None).
Proof.
  assert (Hnone : forall key value,
             store saved_once !! key = Some value ->
             String.prefix "other/" key = false).
  { intros key value Hk.
    assert (Hstore : store saved_once = {[first_key := first_value]})
      by (vm_compute; reflexivity).
    rewrite Hstore in Hk. apply lookup_singleton_Some in Hk as [<- _].
    reflexivity. }
  split; [reflexivity|]. split; [exact Hnone|].
  apply (GetSchemasByPrefix_nothing_under_prefix "other/" saved_once eq_refl Hnone).
Defined.

Lemma GetSchemasByPrefix_corrupt_record_witness :
  next_fault corrupted = None
  /\ range (store corrupted) (String.prefix "org/")
     = [{| Key := "org/ns/name/v1.0.0"; Value := first_value |};
        {| Key := "org/ns/name/v2.0.0"; Value := "garbage" |}]
  /\ exists key value e,
       store corrupted !! key = Some value
       /\ read_back value = (None, Some e)
       /\ fst (run (GetSchemasByPrefix "org/") corrupted) = Returns ([], Some e)
       /\ fst (run (GetLatestVersionByPrefix "org/") corrupted)
          = Returns ("", Some e).
Proof.
  assert (Hrange : range (store corrupted) (String.prefix "org/")
                   = [{| Key := "org/ns/name/v1.0.0"; Value := first_value |};
                      {| Key := "org/ns/name/v2.0.0"; Value := "garbage" |}])
    by (vm_compute; reflexivity).
  split; [reflexivity|]. split; [exact Hrange|].
  destruct (GetSchemasByPrefix_corrupt_record "org/" corrupted eq_refl)
    as (key & value & e & Hk & _ & Hr & Hlist & Hlatest).
  - rewrite Hrange. repeat constructor.
  - rewrite Hrange. right. left. reflexivity.
  - exists key, value, e. auto.
Defined.

Lemma GetSchemasByPrefix_short_key_witness :
  next_fault short_key = None
  /\ range (store short_key) (String.prefix "org")
     = [] ++ {| Key := "org/ns"; Value := first_value |} :: []
  /\ (strings_Count "org/ns" "/" < 3)%nat
  /\ fst (run (GetSchemasByPrefix "org") short_key)
     = Panics "runtime error: index out of range [2] with length 2"
  /\ fst (run (GetLatestVersionByPrefix "org") short_key)
     = Panics "runtime error: index out of range [2] with length 2".
Proof.
  assert (Hrange : range (store short_key) (String.prefix "org")
                   = [] ++ {| Key := "org/ns"; Value := first_value |} :: [])
    by (vm_compute; reflexivity).
  assert (Hshort : (strings_Count "org/ns" "/" < 3)%nat) by (simpl; lia).
  split; [reflexivity|]. split; [exact Hrange|]. split; [exact Hshort|].
  apply (GetSchemasByPrefix_short_key "org" short_key [] []
           {| Key := "org/ns"; Value := first_value |} [] eq_refl Hrange
           ltac:(constructor) Hshort).
Defined.

Lemma GetSchemasByPrefix_invalid_versions_witness :
  next_fault unprefixed = None
  /\ Forall (fun c => semver.parse (version_of c) = None) unprefixed_entries
  /\ fst (run (GetSchemasByPrefix "org/ns/name/") unprefixed)
     = Returns (unprefixed_entries, None).
Proof.
  assert (Hinvalid : Forall (fun c => semver.parse (version_of c) = None)
                            unprefixed_entries)
    by (repeat constructor).
  split; [reflexivity|]. split; [exact Hinvalid|].
  apply (GetSchemasByPrefix_invalid_versions "org/ns/name/" unprefixed
           unprefixed_entries eq_refl); [|exact Hinvalid|simpl; lia].
  assert (Hrange : range (store unprefixed) (String.prefix "org/ns/name/")
                   = (fun v => {| Key := "org/ns/name/" +:+ v;
                                  Value := first_value |})
                       <$> ["0.9.0"; "1.10.0"; "1.2.0"; "1.3.0"])
    by (vm_compute; reflexivity).
  rewrite Hrange. repeat constructor.
Defined.

Lemma GetLatestVersionByPrefix_is_stored_witness :
  fst (run (GetLatestVersionByPrefix "org/ns/name/") prefixed)
  = Returns ("v1.10.0", None)
  /\ exists key value,
       store prefixed !! key = Some value
       /\ String.prefix "org/ns/name/" key = true
       /\ key_version key = Some "v1.10.0".
Proof.
  assert (Hlatest : fst (run (GetLatestVersionByPrefix "org/ns/name/") prefixed)
                    = Returns ("v1.10.0", None))
    by (vm_compute; reflexivity).
  split; [exact Hlatest|].
  destruct (GetLatestVersionByPrefix_is_stored "org/ns/name/" "v1.10.0" prefixed
              Hlatest) as [[_ Hempty] | Hstored]; [discriminate | exact Hstored].
Defined.

Lemma GetSchemasByPrefix_ascending_witness :
  fst (run (GetSchemasByPrefix "org/ns/name/") prefixed)
  = Returns (prefixed_entries, None)
  /\ (length prefixed_entries <= 12)%nat
  /\ StronglySorted (fun a b => not_lower (version_of a) (version_of b))
       prefixed_entries.
Proof.
  assert (Hlist : fst (run (GetSchemasByPrefix "org/ns/name/") prefixed)
                  = Returns (prefixed_entries, None))
    by (vm_compute; reflexivity).
  assert (Hlen : (length prefixed_entries <= 12)%nat) by (simpl; lia).
  split; [exact Hlist|]. split; [exact Hlen|].
  exact (GetSchemasByPrefix_ascending "org/ns/name/" prefixed prefixed_entries
           Hlist Hlen).
Defined.

Lemma GetLatestVersionByPrefix_highest_witness :
  fst (run (GetLatestVersionByPrefix "org/ns/name/") prefixed)
  = Returns ("v1.10.0", None)
  /\ fst (run (GetSchemasByPrefix "org/ns/name/") prefixed)
     = Returns (prefixed_entries, None)
  /\ Forall (fun c => not_lower (version_of c) "v1.10.0") prefixed_entries.
Proof.
  assert (Hlatest : fst (run (GetLatestVersionByPrefix "org/ns/name/") prefixed)
                    = Returns ("v1.10.0", None))
    by (vm_compute; reflexivity).
  assert (Hlist : fst (run (GetSchemasByPrefix "org/ns/name/") prefixed)
                  = Returns (prefixed_entries, None))
    by (vm_compute; reflexivity).
  assert (Hlen : (length prefixed_entries <= 12)%nat) by (simpl; lia).
  split; [exact Hlatest|]. split; [exact Hlist|].
  apply Forall_forall. intros c Hc.
  exact (GetLatestVersionByPrefix_highest "org/ns/name/" "v1.10.0" prefixed
           prefixed_entries c Hlatest Hlist Hlen Hc).
Defined.


Lemma SaveConfigSchema_error_writes_nothing_witness :
  fst (run (SaveConfigSchema first_key "a: 2") saved_once)
  = Returns (already_exists first_key)
  /\ store (snd (run (SaveConfigSchema first_key "a: 2") saved_once))
     = store saved_once.
Proof.
  assert (Herr : fst (run (SaveConfigSchema first_key "a: 2") saved_once)
                 = Returns (already_exists first_key))
    by (vm_compute; reflexivity).
  split; [exact Herr|].
  exact (proj2 (SaveConfigSchema_error_writes_nothing first_key "a: 2" saved_once)
           _ Herr).
Defined.

Lemma getSchemaDetailsFromKey_Return_iff_witness :
  (3 <= strings_Count first_key "/")%nat
  /\ (exists d, getSchemaDetailsFromKey first_key = Return d)
  /\ (strings_Count "org/ns" "/" < 3)%nat
  /\ getSchemaDetailsFromKey "org/ns"
     = Panic "runtime error: index out of range [2] with length 2".
Proof.
  assert (Hlong : (3 <= strings_Count first_key "/")%nat) by (simpl; lia).
  assert (Hshort : (strings_Count "org/ns" "/" < 3)%nat) by (simpl; lia).
  split; [exact Hlong|]. split.
  - exact (proj2 (proj1 (getSchemaDetailsFromKey_Return_iff first_key)) Hlong).
  - split; [exact Hshort|].
    exact (proj2 (getSchemaDetailsFromKey_Return_iff "org/ns") Hshort).
Defined.

(** ** More on range reads *)

Lemma range_NoDup (m : gmap string string) (p : string -> bool) :
  NoDup (range m p).
Proof.
  unfold range. rewrite merge_sort_Permutation.
  apply NoDup_ListNoDup, List.NoDup_filter, NoDup_ListNoDup.
  apply NoDup_fmap_2_strong; [|apply NoDup_map_to_list].
  intros [k1 v1] [k2 v2] _ _ [= -> ->]. reflexivity.
Qed.

(** A range read that only one stored key matches. *)
Lemma range_only (m : gmap string string) (p : string -> bool)
    (key value : string) :
  m !! key = Some value ->
  p key = true ->
  (forall k v, m !! k = Some v -> p k = true -> k = key) ->
  range m p = [{| Key := key; Value := value |}].
Proof.
  intros Hk Hp Honly.
  assert (Hin : {| Key := key; Value := value |} ∈ range m p)
    by (apply elem_of_range; auto).
  assert (Hall : forall kv, kv ∈ range m p -> kv = {| Key := key; Value := value |}).
  { intros [k v] Hkv. apply elem_of_range in Hkv as [Hk' Hp']. simpl in *.
    pose proof (Honly _ _ Hk' Hp'). subst k. congruence. }
  pose proof (range_NoDup m p) as Hnd.
  destruct (range m p) as [|a [|b l]].
  - inversion Hin.
  - rewrite (Hall a); [reflexivity | left].
  - exfalso. rewrite (Hall a) in Hnd by left.
    rewrite (Hall b) in Hnd by (right; left).
    apply NoDup_cons in Hnd as [Hnot _]. apply Hnot. left.
Qed.

Section more_compositions.

Context `{Codec}.

(** X23. Save and then a listing of a prefix of the key: when the listing
returns without error, the saved record is among its entries, with the
details parsed from its key and the envelope read back from what Save
wrote. *)
Theorem SaveConfigSchema_then_listed
  (key schema prefix : string) (w0 w1 : World) (schemas : list ConfigSchema) :
run (SaveConfigSchema key schema) w0 = (Returns None, w1) ->
String.prefix prefix key = true ->
fst (run (GetSchemasByPrefix prefix) w1) = Returns (schemas, None) ->
exists json value c,
  yaml_YAMLToJSON schema = (json, None)
  /\ json_Marshal {| Schema := json;
                     CreationTime := Some (timestamppb_New (clock w0)) |}
     = (value, None)
  /\ c ∈ schemas
  /\ getSchemaDetailsFromKey key = Return (SchemaDetails c)
  /\ read_back value = (Some (SchemaData c), None).
Proof.
intros Hsave Hp Hlist.
destruct (SaveConfigSchema_success _ _ _ _ Hsave)
  as (json & value & Hy & Hm & _ & Hw).
destruct (GetSchemasByPrefix_Returns _ _ _ Hlist) as (_ & l & Hl & ->).
assert (Hin : {| Key := key; Value := value |}
              ∈ range (store w1) (String.prefix prefix)).
{ apply elem_of_range. simpl. split; [|exact Hp].
  rewrite Hw. apply lookup_insert_eq. }
apply list_elem_of_lookup in Hin as [i Hi].
destruct (Forall2_lookup_l _ _ _ _ _ Hl Hi) as (c & Hc & Hd & Hr).
exists json, value, c. split; [exact Hy|]. split; [exact Hm|].
split; [|split; [exact Hd | exact Hr]].
rewrite sort_Slice_Permutation. eapply list_elem_of_lookup_2. exact Hc.
Qed.

(** X24. Save takes any key.  Once it has stored a key with fewer than
three separators, the listing of a prefix that only this key matches
panics, and so does the latest version. *)
Theorem SaveConfigSchema_short_key_poisons
  (key schema prefix : string) (w0 w1 : World) :
run (SaveConfigSchema key schema) w0 = (Returns None, w1) ->
(strings_Count key "/" < 3)%nat ->
String.prefix prefix key = true ->
(forall k v, store w0 !! k = Some v -> String.prefix prefix k = false) ->
next_fault w1 = None ->
let n := S (strings_Count key "/") in
fst (run (GetSchemasByPrefix prefix) w1) = Panics (out_of_range n n)
/\ fst (run (GetLatestVersionByPrefix prefix) w1) = Panics (out_of_range n n).
Proof.
intros Hsave Hshort Hp Hnone Hn n.
destruct (SaveConfigSchema_success _ _ _ _ Hsave)
  as (json & value & _ & _ & _ & Hw).
assert (Hrange : range (store w1) (String.prefix prefix)
                 = [{| Key := key; Value := value |}]).
{ apply range_only; [rewrite Hw; apply lookup_insert_eq | exact Hp |].
  intros k v Hk Hpk. rewrite Hw in Hk.
  destruct (decide (k = key)) as [-> | Hne]; [reflexivity|].
  rewrite lookup_insert_ne in Hk by congruence.
  rewrite (Hnone _ _ Hk) in Hpk. discriminate. }
pose proof (getSchemaDetailsFromKey_short key Hshort) as Hpanic.
assert (Hlist : run (GetSchemasByPrefix prefix) w1
                = (Panics (out_of_range n n), called w1)).
{ unfold GetSchemasByPrefix. rewrite run_call. simpl exec. rewrite Hn. simpl.
  rewrite Hrange. change (Z.of_nat (length [_]) =? 0) with false. cbv iota.
  rewrite run_bind. simpl. rewrite Hpanic. reflexivity. }
split; [rewrite Hlist; reflexivity|].
unfold GetLatestVersionByPrefix. rewrite run_bind, Hlist. reflexivity.
Qed.

End more_compositions.

(** X25. The order given to sort.Slice is a strict weak order, which is
  what sort.Slice asks of it: no entry is less than itself, two entries
  are never less than each other, less is transitive, and so is being
  neither less nor greater. *)
Theorem version_less_strict_weak_order (a b c : ConfigSchema) :
  version_less a a = false
  /\ (version_less a b = true -> version_less b a = false)
  /\ (version_less a b = true -> version_less b c = true ->
      version_less a c = true)
  /\ (version_less a b = false -> version_less b a = false ->
      version_less b c = false -> version_less c b = false ->
      version_less a c = false /\ version_less c a = false).
Proof.
  unfold version_less.
  set (x := GetVersion (GetSchemaDetails a)).
  set (y := GetVersion (GetSchemaDetails b)).
  set (z := GetVersion (GetSchemaDetails c)).
  split; [rewrite Compare_refl; reflexivity|].
  split; [intros Hxy; apply Z.eqb_eq in Hxy; apply Z.eqb_neq;
          rewrite (Compare_antisym x y), Hxy; discriminate|].
  split.
  - rewrite !Z.eqb_eq. apply Compare_trans.
  - rewrite !Z.eqb_neq. intros Hxy Hyx Hyz Hzy.
    assert (Exy : semver.Compare x y = 0).
    { destruct (Compare_range x y) as [E | [E | E]]; [contradiction | exact E |].
      exfalso. apply Hyx. rewrite (Compare_antisym x y), E. reflexivity. }
    assert (Eyz : semver.Compare y z = 0).
    { destruct (Compare_range y z) as [E | [E | E]]; [contradiction | exact E |].
      exfalso. apply Hzy. rewrite (Compare_antisym y z), E. reflexivity. }
    assert (Exz : semver.Compare x z = 0)
      by (rewrite (Compare_equal x y z Exy); exact Eyz).
    rewrite (Compare_antisym x z), Exz. split; discriminate.
Qed.

Lemma SaveConfigSchema_then_listed_witness :
  run (SaveConfigSchema first_key "a: 1") Plain.empty_world = (Returns None, saved_once)
  /\ String.prefix "org/" first_key = true
  /\ fst (run (GetSchemasByPrefix "org/") saved_once) = Returns ([first_entry], None)
  /\ exists c,
       c ∈ [first_entry]
       /\ getSchemaDetailsFromKey first_key = Return (SchemaDetails c)
       /\ read_back first_value = (Some (SchemaData c), None).
Proof.
  assert (Hsave : run (SaveConfigSchema first_key "a: 1") Plain.empty_world
                  = (Returns None, saved_once))
    by (vm_compute; reflexivity).
  assert (Hlist : fst (run (GetSchemasByPrefix "org/") saved_once)
                  = Returns ([first_entry], None))
    by (vm_compute; reflexivity).
  split; [exact Hsave|]. split; [reflexivity|]. split; [exact Hlist|].
  destruct (SaveConfigSchema_then_listed first_key "a: 1" "org/" Plain.empty_world
              saved_once [first_entry] Hsave eq_refl Hlist)
    as (json & value & c & Hy & Hm & Hc & Hd & Hr).
  injection Hy as <-. injection Hm as <-.
  exists c. split; [exact Hc|]. split; [exact Hd | exact Hr].
Defined.

Lemma SaveConfigSchema_short_key_poisons_witness :
  run (SaveConfigSchema "org/ns" "a: 1") Plain.empty_world = (Returns None, short_key)
  /\ (strings_Count "org/ns" "/" < 3)%nat
  /\ fst (run (GetSchemasByPrefix "org") short_key)
     = Panics "runtime error: index out of range [2] with length 2"
  /\ fst (run (GetLatestVersionByPrefix "org") short_key)
     = Panics "runtime error: index out of range [2] with length 2".
Proof.
  assert (Hsave : run (SaveConfigSchema "org/ns" "a: 1") Plain.empty_world
                  = (Returns None, short_key))
    by (vm_compute; reflexivity).
  assert (Hshort : (strings_Count "org/ns" "/" < 3)%nat) by (simpl; lia).
  split; [exact Hsave|]. split; [exact Hshort|].
  apply (SaveConfigSchema_short_key_poisons "org/ns" "a: 1" "org" Plain.empty_world
           short_key Hsave Hshort eq_refl); [|reflexivity].
  intros k v Hk.
  change (store Plain.empty_world) with (∅ : gmap string string) in Hk.
  rewrite lookup_empty in Hk. discriminate.
Defined.

Lemma version_less_strict_weak_order_witness :
  version_less first_entry
    {| SchemaDetails := {| Organization := "org"; Namespace := "ns";
                           SchemaName := "name"; Version := "v1.0.1" |};
       SchemaData := first_envelope |} = true
  /\ version_less
       {| SchemaDetails := {| Organization := "org"; Namespace := "ns";
                              SchemaName := "name"; Version := "v1.0.1" |};
          SchemaData := first_envelope |} first_entry = false.
Proof.
  assert (Hless : version_less first_entry
            {| SchemaDetails := {| Organization := "org"; Namespace := "ns";
                                   SchemaName := "name"; Version := "v1.0.1" |};
               SchemaData := first_envelope |} = true) by reflexivity.
  split; [exact Hless|].
  exact (proj1 (proj2 (version_less_strict_weak_order first_entry _ first_entry))
           Hless).
Defined.
